(** * Stryker.ts: the mutation-testing pipeline coordinator

    A shallow embedding of [src/Stryker.ts]: the baseline gate
    ([filterOutUnsuccesfulResults], [logInitialTestRunSucceeded],
    [logFailedTests]), the promise chain of [runMutationTest] and the
    constructor that freezes the configuration.

    Conventions.
    - A JavaScript string is a [string]; the default comparison of
      [Array.prototype.sort] (code unit by code unit) is the lexical order
      of [String_as_OT].
    - A count ([succeeded], [failed]) is a [Z]; a number is truthy when it
      is not zero. The rounding of large floating point sums is not
      modelled.
    - A promise chain is a computation in the monad [M]: it threads the
      chronological list of the events the coordinator caused (collaborator
      calls and log lines) and ends fulfilled or rejected. *)

From Stdlib Require Import List String Ascii ZArith Bool Lia.
From Stdlib Require Import Sorted Permutation RelationClasses.
From Stdlib Require Import OrdersEx DecimalString.
Import ListNotations.

Local Open Scope string_scope.
Local Open Scope list_scope.

(** ** The lodash and Array helpers the file uses *)

Module JS.

(** Truthiness of a number: [!n] is [true] exactly for zero. *)
Definition truthy (n : Z) : bool := negb (n =? 0)%Z.

(** [_.flatten]: one level of nesting is removed, order kept. *)
Definition flatten {A : Type} (ls : list (list A)) : list A := List.concat ls.

Definition mem (s : string) (l : list string) : bool :=
  existsb (String.eqb s) l.

(** [_.uniq]: the first occurrence of every value is kept, in order.
    [seen] holds what was already pushed to the result. *)
Fixpoint uniq_from (seen : list string) (l : list string) : list string :=
  match l with
  | [] => []
  | x :: rest =>
      if mem x seen then uniq_from seen rest
      else x :: uniq_from (x :: seen) rest
  end.

Definition uniq (l : list string) : list string := uniq_from [] l.

(** The comparison [Array.prototype.sort] uses without a comparator. *)
Definition leb (a b : string) : bool :=
  match String_as_OT.compare a b with
  | Gt => false
  | _ => true
  end.

Fixpoint insert (x : string) (l : list string) : list string :=
  match l with
  | [] => [x]
  | y :: rest => if leb x y then x :: l else y :: insert x rest
  end.

(** [Array.prototype.sort()]: the engine's algorithm is not fixed by the
    language; on strings every correct one returns the same array
    (see [sort_unique]), here by insertion. *)
Fixpoint sort (l : list string) : list string :=
  match l with
  | [] => []
  | x :: rest => insert x (sort rest)
  end.

(** [String(n)] for an integer. *)
Definition showZ (n : Z) : string := NilZero.string_of_int (Z.to_int n).

End JS.

(** ** Data model *)

(** Modelled from the spec: the enum [TestResult] is declared in
    stryker-api/test_runner, outside the source; the overall status of a
    run is one of Complete, Error and Timeout. *)
Inductive TestResult : Type := Complete | Error | Timeout.

Definition TestResult_eqb (a b : TestResult) : bool :=
  match a, b with
  | Complete, Complete | Error, Error | Timeout, Timeout => true
  | _, _ => false
  end.

(** Modelled from the spec: the declaration of [RunResult] lives in
    stryker-api/test_runner, outside the source; these are the fields the
    data model lists and the coordinator reads ([coverage] and the time
    spent are only read by the matcher and the runners). *)
Record RunResult : Type := mkRunResult {
  testNames : list string;
  result : TestResult;
  succeeded : Z;
  failed : Z;
  errorMessages : list string
}.

(** Modelled from the spec: [InputFile] is declared in stryker-api/core,
    outside the source; a file path and a [shouldMutate] flag, its position
    being its place in the list of resolved files. *)
Record InputFile : Type := mkInputFile {
  path : string;
  shouldMutate : bool
}.

(** ** The baseline gate *)

(** The callback of [filterOutUnsuccesfulResults]:
    [!(!runResult.failed && runResult.result === TestResult.Complete)]. *)
Definition isUnsuccessful (runResult : RunResult) : bool :=
  negb (negb (JS.truthy (failed runResult))
        && TestResult_eqb (result runResult) Complete).

Definition filterOutUnsuccesfulResults (runResults : list RunResult)
  : list RunResult :=
  filter isUnsuccessful runResults.

(** The accumulator loop of [logInitialTestRunSucceeded]. *)
Definition totalAmountOfTests (runResults : list RunResult) : Z :=
  fold_left
    (fun total r =>
       if JS.truthy (succeeded r) then (total + succeeded r)%Z else total)
    runResults 0%Z.

(** The first list of [logFailedTests]. *)
Definition failedSpecNames (unsuccessfulTests : list RunResult) : list string :=
  JS.sort
    (JS.uniq
       (JS.flatten
          (map testNames
             (filter (fun r => TestResult_eqb (result r) Complete)
                unsuccessfulTests)))).

(** The second list of [logFailedTests]: no [_.uniq] on this one. *)
Definition errors (unsuccessfulTests : list RunResult) : list string :=
  JS.sort
    (JS.flatten
       (map errorMessages
          (filter (fun r => TestResult_eqb (result r) Error)
             unsuccessfulTests))).

Definition nl_tab : string :=
  String (ascii_of_nat 10) (String (ascii_of_nat 9) EmptyString).

(** [items.forEach(x => message += `\n\t${x}`)]. *)
Definition appendLines (message : string) (items : list string) : string :=
  fold_left (fun m x => (m ++ nl_tab ++ x)%string) items message.

Definition failedMessage (names : list string) : string :=
  appendLines "One or more tests failed in the inial test run:" names.

Definition erroredMessage (errs : list string) : string :=
  appendLines "One or more tests errored in the initial test run:" errs.

(** ** Configuration values

    Modelled from the spec: [Config] is declared in stryker-api/config,
    outside the source. The configuration is a mapping from option names to
    values, some of them nested mappings or sequences. A JavaScript object
    carries its frozen flag and its own properties in insertion order; an
    array is an object whose property names are its indices. *)
#[warnings="-register-all"]
Inductive JsVal : Type :=
| JUndefined
| JNull
| JBool (b : bool)
| JNum (n : Z)
| JStr (s : string)
| JObj (frozen : bool) (props : list (string * JsVal)).

Fixpoint lookup (k : string) (props : list (string * JsVal)) : option JsVal :=
  match props with
  | [] => None
  | (k', v) :: rest => if String.eqb k k' then Some v else lookup k rest
  end.

(** [target[k]] read on a value that is not null or undefined. *)
Definition getProp (k : string) (target : JsVal) : JsVal :=
  match target with
  | JObj _ props => match lookup k props with Some v => v | None => JUndefined end
  | _ => JUndefined
  end.

Definition truthyVal (v : JsVal) : bool :=
  match v with
  | JUndefined | JNull => false
  | JBool b => b
  | JNum n => JS.truthy n
  | JStr s => negb (String.eqb s "")
  | JObj _ _ => true
  end.

(** Modelled from the spec: [freezeRecursively] of utils/objectUtils is not
    part of the source. The spec asks for a recursive immutability wrapper
    that reaches nested mapping and sequence values: the object is frozen,
    then every property value that is an object, recursively. *)
Fixpoint freezeRecursively (target : JsVal) : JsVal :=
  match target with
  | JObj _ props =>
      JObj true (map (fun kv => let '(k, v) := kv in (k, freezeRecursively v)) props)
  | v => v
  end.

(** Every object reachable from the value is frozen. *)
Fixpoint deepFrozen (v : JsVal) : bool :=
  match v with
  | JObj frozen props =>
      frozen && forallb (fun kv => let '(_, x) := kv in deepFrozen x) props
  | _ => true
  end.

(** The value with the frozen flags forgotten: what a reader observes. *)
Fixpoint contents (v : JsVal) : JsVal :=
  match v with
  | JObj _ props =>
      JObj false (map (fun kv => let '(k, x) := kv in (k, contents x)) props)
  | x => x
  end.

Fixpoint setKey (k : string) (v : JsVal) (props : list (string * JsVal))
  : list (string * JsVal) :=
  match props with
  | [] => [(k, v)]
  | (k', x) :: rest =>
      if String.eqb k k' then (k, v) :: rest else (k', x) :: setKey k v rest
  end.

Fixpoint removeKey (k : string) (props : list (string * JsVal))
  : list (string * JsVal) :=
  match props with
  | [] => []
  | (k', x) :: rest =>
      if String.eqb k k' then rest else (k', x) :: removeKey k rest
  end.

(** What a piece of code can try on an object it holds:
    [o[key] = v] and [delete o[key]]. *)
Inductive Mutation : Type :=
| Assign (key : string) (v : JsVal)
| Delete (key : string).

(** The mutation applied to the object itself, in strict mode: [None] is the
    TypeError a frozen object (or a value that is no object) answers with. *)
Definition mutateHere (m : Mutation) (target : JsVal) : option JsVal :=
  match target with
  | JObj false props =>
      Some (JObj false
              (match m with
               | Assign k v => setKey k v props
               | Delete k => removeKey k props
               end))
  | _ => None
  end.

(** The mutation applied to [target.p1.p2...pn]: the path is read up to the
    object, which is changed in place, so the objects above it see the
    change. Reading through a missing property throws as well. *)
Fixpoint mutateAt (p : list string) (m : Mutation) (target : JsVal)
  : option JsVal :=
  match p with
  | [] => mutateHere m target
  | k :: rest =>
      match target with
      | JObj frozen props =>
          match lookup k props with
          | Some child =>
              match mutateAt rest m child with
              | Some child' => Some (JObj frozen (setKey k child' props))
              | None => None
              end
          | None => None
          end
      | _ => None
      end
  end.

(** A sequence of attempts, each one caught or not by its author: the
    configuration after them. *)
Definition attempt (cfg : JsVal) (w : list string * Mutation) : JsVal :=
  match mutateAt (fst w) (snd w) cfg with
  | Some cfg' => cfg'
  | None => cfg
  end.

Definition attempts (ws : list (list string * Mutation)) (cfg : JsVal) : JsVal :=
  fold_left attempt ws cfg.

(** ** Promises, events and the coordinator's monad *)

(** [new Error(message)]. *)
Record JsError : Type := mkError { message : string }.

(** How a promise settles (or a call returns or throws); [Pending] is the
    promise that never settles (or the call that never returns). *)
Inductive Outcome (A : Type) : Type :=
| Fulfilled (a : A)
| Rejected (e : JsError)
| Pending.

Arguments Fulfilled {A} a.
Arguments Rejected {A} e.
Arguments Pending {A}.

(** What [reporter.wrapUp()] hands back: nothing, or a promise. *)
Inductive MaybePromise : Type :=
| NotAPromise
| APromise (settles : Outcome unit).

(** Modelled from the spec: [isPromise] of utils/objectUtils is not part of
    the source; it tells whether the finalization step is asynchronous, that
    is, whether what [wrapUp] returned is a promise. *)
Definition isPromise (x : MaybePromise) : bool :=
  match x with
  | NotAPromise => false
  | APromise _ => true
  end.

(** The [Reporter] interface of stryker-api/report, as far as the
    coordinator calls it: [wrapUp] may also throw. *)
Record Reporter : Type := mkReporter { wrapUp : Outcome MaybePromise }.

Inductive Level : Type := Info | Err | Debug.

Section Coordinator.

(** [Mutant] and [MutantResult] are opaque to the coordinator. *)
Variables Mutant MutantResult TestSelector : Type.

(** What the coordinator does to the outside, in order. *)
Inductive Event : Type :=
| Resolve (mutate files : JsVal)
| InitialRun (inputFiles : list InputFile)
| GenerateMutants (paths : list string)
| MatchWithMutants (mutants : list Mutant) (runResults : list RunResult)
| RunMutations (mutants : list Mutant)
| WrapUp
| WrapUpAwaited
| Log (level : Level) (line : string).

(** [new TestRunnerOrchestrator(config, inputFiles, testSelector, reporter)]. *)
Record TestRunnerOrchestrator : Type := mkTestRunnerOrchestrator {
  initialRun : Outcome (list RunResult);
  runMutations : list Mutant -> Outcome (list MutantResult)
}.

(** The collaborators, none of them part of the source. The matcher writes
    into the mutants it was given: [matchWithMutants] returns them as they
    are afterwards, and it is those the runner receives. *)
Record Collaborators : Type := mkCollaborators {
  createBroadcastReporter : JsVal -> Reporter;
  determineTestSelector : JsVal -> TestSelector;
  resolve : JsVal -> JsVal -> Outcome (list InputFile);
  newTestRunnerOrchestrator :
    JsVal -> list InputFile -> TestSelector -> Reporter -> TestRunnerOrchestrator;
  generateMutants : Reporter -> list string -> Outcome (list Mutant);
  matchWithMutants : list Mutant -> list RunResult -> Outcome (list Mutant)
}.

(** A step of a promise chain: from the events so far to the outcome of
    the step and the events up to it. *)
Definition M (A : Type) : Type := list Event -> Outcome A * list Event.

Definition ret {A : Type} (a : A) : M A := fun tr => (Fulfilled a, tr).

(** [throw e] inside a [then] callback: the chain is rejected. *)
Definition throw {A : Type} (e : JsError) : M A := fun tr => (Rejected e, tr).

(** [p.then(k)]: [k] runs only when [p] is fulfilled; a rejection skips
    it, and it is never reached while [p] is pending. *)
Definition bind {A B : Type} (p : M A) (k : A -> M B) : M B :=
  fun tr =>
    match p tr with
    | (Fulfilled a, tr') => k a tr'
    | (Rejected e, tr') => (Rejected e, tr')
    | (Pending, tr') => (Pending, tr')
    end.

Definition emit (e : Event) : M unit := fun tr => (Fulfilled tt, tr ++ [e]).

(** A call into a collaborator: the call is recorded, then its outcome is
    the outcome of the step. *)
Definition call {A : Type} (e : Event) (o : Outcome A) : M A :=
  fun tr => (o, tr ++ [e]).

(** The callback registered on a promise the coordinator waits for: [e] is
    recorded when the promise is fulfilled and the callback runs. *)
Definition await (e : Event) (p : Outcome unit) : M unit :=
  fun tr =>
    match p with
    | Fulfilled _ => (Fulfilled tt, tr ++ [e])
    | Rejected err => (Rejected err, tr)
    | Pending => (Pending, tr)
    end.

Notation "x <- p ;; k" := (bind p (fun x => k))
  (at level 100, p at next level, right associativity).
Notation "p ;;; k" := (bind p (fun _ => k))
  (at level 100, right associativity).

Definition when (b : bool) (m : M unit) : M unit := if b then m else ret tt.

(** [log.info('Initial test run succeeded. Ran %s tests.', total)]. *)
Definition logInitialTestRunSucceeded (runResults : list RunResult) : M unit :=
  emit (Log Info ("Initial test run succeeded. Ran "
                  ++ JS.showZ (totalAmountOfTests runResults) ++ " tests.")%string).

Definition logFailedTests (unsuccessfulTests : list RunResult) : M unit :=
  let names := failedSpecNames unsuccessfulTests in
  when (0 <? List.length names)%nat (emit (Log Err (failedMessage names))) ;;;
  let errs := errors unsuccessfulTests in
  when (0 <? List.length errs)%nat (emit (Log Err (erroredMessage errs))).

(** The error the gate throws, the fatal condition the specification calls
    InitialRunFailed. *)
Definition InitialRunFailed : JsError :=
  mkError "There were failed tests in the initial test run".

(** The paths handed to the mutant generator:
    [inputFiles.filter(f => f.shouldMutate).map(f => f.path)]. *)
Definition filesToMutate (inputFiles : list InputFile) : list string :=
  map path (filter shouldMutate inputFiles).

Variable env : Collaborators.

(** [Stryker.runMutationTest], with [config] for [this.config]. *)
Definition runMutationTest (config : JsVal) : M (list MutantResult) :=
  let reporter := createBroadcastReporter env config in
  let testSelector := determineTestSelector env config in
  tuple <-
    (inputFiles <-
       call (Resolve (getProp "mutate" config) (getProp "files" config))
         (resolve env (getProp "mutate" config) (getProp "files" config)) ;;
     let testRunnerOrchestrator :=
       newTestRunnerOrchestrator env config inputFiles testSelector reporter in
     runResults <- call (InitialRun inputFiles) (initialRun testRunnerOrchestrator) ;;
     ret (runResults, inputFiles, testRunnerOrchestrator)) ;;
  mutantResults <-
    (let '(runResults, inputFiles, testRunnerOrchestrator) := tuple in
     let unsuccessfulTests := filterOutUnsuccesfulResults runResults in
     if (List.length unsuccessfulTests =? 0)%nat then
       logInitialTestRunSucceeded runResults ;;;
       mutants <-
         call (GenerateMutants (filesToMutate inputFiles))
           (generateMutants env reporter (filesToMutate inputFiles)) ;;
       emit (Log Info (JS.showZ (Z.of_nat (List.length mutants))
                       ++ " Mutant(s) generated")%string) ;;;
       matched <-
         call (MatchWithMutants mutants runResults)
           (matchWithMutants env mutants runResults) ;;
       call (RunMutations matched) (runMutations testRunnerOrchestrator matched)
     else
       logFailedTests unsuccessfulTests ;;;
       throw InitialRunFailed) ;;
  maybePromise <- call WrapUp (wrapUp reporter) ;;
  if isPromise maybePromise then
    match maybePromise with
    | APromise settles => await WrapUpAwaited settles ;;; ret mutantResults
    | NotAPromise => ret mutantResults
    end
  else ret mutantResults.

(** The whole run from an empty history. *)
Definition run (config : JsVal) : Outcome (list MutantResult) * list Event :=
  runMutationTest config [].

End Coordinator.

Arguments Resolve {Mutant} mutate files.
Arguments InitialRun {Mutant} inputFiles.
Arguments GenerateMutants {Mutant} paths.
Arguments MatchWithMutants {Mutant} mutants runResults.
Arguments RunMutations {Mutant} mutants.
Arguments WrapUp {Mutant}.
Arguments WrapUpAwaited {Mutant}.
Arguments Log {Mutant} level line.
Arguments initialRun {Mutant MutantResult} t.
Arguments runMutations {Mutant MutantResult} t mutants.
Arguments resolve {Mutant MutantResult TestSelector} c mutate files.
Arguments generateMutants {Mutant MutantResult TestSelector} c reporter paths.
Arguments matchWithMutants {Mutant MutantResult TestSelector} c mutants runResults.
Arguments createBroadcastReporter {Mutant MutantResult TestSelector} c config.
Arguments determineTestSelector {Mutant MutantResult TestSelector} c config.
Arguments newTestRunnerOrchestrator {Mutant MutantResult TestSelector} c config inputFiles testSelector reporter.
Arguments run {Mutant MutantResult TestSelector} env config.
Arguments runMutationTest {Mutant MutantResult TestSelector} env config _.
Arguments logFailedTests {Mutant} unsuccessfulTests _.
Arguments logInitialTestRunSucceeded {Mutant} runResults _.

(** ** The constructor *)

(** A config writer's [write(config)]: it changes the object it is given. *)
Definition ConfigWriter : Type := JsVal -> JsVal.

(** The process-wide state the constructor touches: the log4js level, the
    names registered with [ConfigWriterFactory], the lines logged. *)
Record Process : Type := mkProcess {
  globalLogLevel : JsVal;
  configWriters : list (string * ConfigWriter);
  logged : list (Level * string)
}.

Record Stryker : Type := mkStryker { config : JsVal }.

Section Constructor.

Variable StrykerOptions : Type.

(** [new ConfigReader(options).readConfig()]. *)
Variable readConfig : StrykerOptions -> JsVal.

(** [new PluginLoader(plugins).load()]: the plugins register themselves,
    config writers among them. *)
Variable load : JsVal -> list (string * ConfigWriter) -> list (string * ConfigWriter).

(** [log.isDebugEnabled()], by the global level, and [JSON.stringify]. *)
Variable isDebugEnabled : JsVal -> bool.
Variable stringify : JsVal -> string.

Definition setGlobalLogLevel (this : Stryker) (p : Process) : Process :=
  mkProcess (getProp "logLevel" (config this)) (configWriters p) (logged p).

Definition loadPlugins (this : Stryker) (p : Process) : Process :=
  if truthyVal (getProp "plugins" (config this)) then
    mkProcess (globalLogLevel p)
      (load (getProp "plugins" (config this)) (configWriters p)) (logged p)
  else p.

Definition applyConfigWriters (this : Stryker) (p : Process) : Stryker :=
  mkStryker
    (fold_left (fun cfg (w : string * ConfigWriter) => snd w cfg)
       (configWriters p) (config this)).

Definition freezeConfig (this : Stryker) (p : Process) : Stryker * Process :=
  let this' := mkStryker (freezeRecursively (config this)) in
  (this',
   if isDebugEnabled (globalLogLevel p) then
     mkProcess (globalLogLevel p) (configWriters p)
       (logged p ++ [(Debug, ("Using config: " ++ stringify (config this'))%string)])
   else p).

(** The configuration as the config writers leave it, before the freeze. *)
Definition writtenConfig (options : StrykerOptions) (p : Process) : JsVal :=
  let this := mkStryker (readConfig options) in
  let p := setGlobalLogLevel this p in
  let p := loadPlugins this p in
  config (applyConfigWriters this p).

(** [new Stryker(options)]. *)
Definition newStryker (options : StrykerOptions) (p : Process) : Stryker * Process :=
  let this := mkStryker (readConfig options) in
  let p := setGlobalLogLevel this p in
  let p := loadPlugins this p in
  let this := applyConfigWriters this p in
  let p := setGlobalLogLevel this p in
  freezeConfig this p.

End Constructor.

(** ** The filter on references

    The same [filterOutUnsuccesfulResults] with the arrays and the run
    results it touches in a store, to state what it leaves as it found it:
    an array is a list of references, [Array.prototype.filter] reads the
    length once, then every index in turn from the array as it is then,
    calls the callback and collects into a fresh array. *)

Module Store.

Definition ref : Type := nat.

Record store : Type := mkStore {
  arrays : list (list ref);
  objects : ref -> RunResult
}.

Definition elements (a : ref) (h : store) : list ref := nth a (arrays h) [].

Definition filterStep (a : ref) (callback : ref -> store -> bool * store)
    (acc : list ref * store) (k : nat) : list ref * store :=
  let '(kept, h) := acc in
  match nth_error (elements a h) k with
  | None => (kept, h)
  | Some x =>
      let '(keep, h') := callback x h in
      (if keep then kept ++ [x] else kept, h')
  end.

(** [a.filter(callback)]: the new array's reference and the store after. *)
Definition Array_filter (a : ref) (callback : ref -> store -> bool * store)
    (h : store) : ref * store :=
  let len := List.length (elements a h) in
  let '(kept, h') := fold_left (filterStep a callback) (seq 0 len) ([], h) in
  (List.length (arrays h'), mkStore (arrays h' ++ [kept]) (objects h')).

(** The callback of the source: it reads two fields and writes nothing. *)
Definition callback (runResult : ref) (h : store) : bool * store :=
  (negb (negb (JS.truthy (failed (objects h runResult)))
         && TestResult_eqb (result (objects h runResult)) Complete), h).

Definition filterOutUnsuccesfulResults (runResults : ref) (h : store)
  : ref * store :=
  Array_filter runResults callback h.

(** What the callback answers for a reference, read in a store. *)
Definition keeps (h : store) (x : ref) : bool := fst (callback x h).

End Store.

(** ** Reading a history *)

Section History.

Context {Mutant : Type}.

(** The argument of every call of the mutant generator, in order. *)
Definition generatorCalls (tr : list (Event Mutant)) : list (list string) :=
  flat_map (fun e => match e with GenerateMutants ps => [ps] | _ => [] end) tr.

Definition matcherCalls (tr : list (Event Mutant))
  : list (list Mutant * list RunResult) :=
  flat_map (fun e => match e with MatchWithMutants ms rs => [(ms, rs)] | _ => [] end) tr.

Definition runnerCalls (tr : list (Event Mutant)) : list (list Mutant) :=
  flat_map (fun e => match e with RunMutations ms => [ms] | _ => [] end) tr.

(** How often the reporter was asked to wrap up. *)
Definition wrapUpCalls (tr : list (Event Mutant)) : nat :=
  List.length (filter (fun e => match e with WrapUp => true | _ => false end) tr).

(** The lines logged, with their level, in order. *)
Definition logLines (tr : list (Event Mutant)) : list (Level * string) :=
  flat_map (fun e => match e with Log lvl line => [(lvl, line)] | _ => [] end) tr.

End History.

(** ** The stages of a run, by name *)

Section Stages.

Context {Mutant MutantResult TestSelector : Type}.
Variable env : Collaborators Mutant MutantResult TestSelector.
Variable config : JsVal.

(** The reporter [runMutationTest] creates. *)
Definition theReporter : Reporter := createBroadcastReporter env config.

(** The test runner orchestrator it creates for the resolved files. *)
Definition theOrchestrator (inputFiles : list InputFile)
  : TestRunnerOrchestrator Mutant MutantResult :=
  newTestRunnerOrchestrator env config inputFiles
    (determineTestSelector env config) theReporter.

(** The file resolution gave [inputFiles] and the initial run on them
    gave [runResults]. *)
Definition Baseline (inputFiles : list InputFile) (runResults : list RunResult)
  : Prop :=
  resolve env (getProp "mutate" config) (getProp "files" config)
    = Fulfilled inputFiles
  /\ initialRun (theOrchestrator inputFiles) = Fulfilled runResults.

(** After a clean baseline, the generator gave [mutants], the matcher left
    them as [matched] and the runner answered [mutantResults]. *)
Definition Executed (inputFiles : list InputFile) (runResults : list RunResult)
    (mutants matched : list Mutant) (mutantResults : list MutantResult) : Prop :=
  Baseline inputFiles runResults
  /\ filterOutUnsuccesfulResults runResults = []
  /\ generateMutants env theReporter (filesToMutate inputFiles) = Fulfilled mutants
  /\ matchWithMutants env mutants runResults = Fulfilled matched
  /\ runMutations (theOrchestrator inputFiles) matched = Fulfilled mutantResults.

(** The events up to the end of the initial run. *)
Definition baselineEvents (inputFiles : list InputFile) : list (Event Mutant) :=
  [Resolve (getProp "mutate" config) (getProp "files" config);
   InitialRun inputFiles].

(** The diagnostics [logFailedTests] writes. *)
Definition failureEvents (unsuccessfulTests : list RunResult)
  : list (Event Mutant) :=
  (if (0 <? List.length (failedSpecNames unsuccessfulTests))%nat
   then [Log Err (failedMessage (failedSpecNames unsuccessfulTests))] else [])
  ++ (if (0 <? List.length (errors unsuccessfulTests))%nat
      then [Log Err (erroredMessage (errors unsuccessfulTests))] else []).

(** The events of a run up to the answer of the mutation runner. *)
Definition executionEvents (inputFiles : list InputFile)
    (runResults : list RunResult) (mutants matched : list Mutant)
  : list (Event Mutant) :=
  baselineEvents inputFiles
  ++ [Log Info ("Initial test run succeeded. Ran "
                ++ JS.showZ (totalAmountOfTests runResults) ++ " tests.")%string;
      GenerateMutants (filesToMutate inputFiles);
      Log Info (JS.showZ (Z.of_nat (List.length mutants))
                ++ " Mutant(s) generated")%string;
      MatchWithMutants mutants runResults;
      RunMutations matched].

(** The last step of the chain: the reporter wraps up. *)
Definition wrapUpStep (mutantResults : list MutantResult) (tr : list (Event Mutant))
  : Outcome (list MutantResult) * list (Event Mutant) :=
  match wrapUp theReporter with
  | Rejected e => (Rejected e, tr ++ [WrapUp])
  | Pending => (Pending, tr ++ [WrapUp])
  | Fulfilled NotAPromise => (Fulfilled mutantResults, tr ++ [WrapUp])
  | Fulfilled (APromise (Fulfilled _)) =>
      (Fulfilled mutantResults, tr ++ [WrapUp; WrapUpAwaited])
  | Fulfilled (APromise (Rejected e)) => (Rejected e, tr ++ [WrapUp])
  | Fulfilled (APromise Pending) => (Pending, tr ++ [WrapUp])
  end.

End Stages.

(** ** The specification's wording, to compare the code with *)

(** A run is unsuccessful if its status is not Complete, or if it is
    Complete but its failed count is not zero. *)
Definition Unsuccessful (r : RunResult) : Prop :=
  result r <> Complete \/ (result r = Complete /\ failed r <> 0%Z).

(** [Selects P l l']: [l'] is [l] with exactly the elements that satisfy
    [P], every occurrence, in their order. *)
Inductive Selects {A : Type} (P : A -> Prop) : list A -> list A -> Prop :=
| Selects_nil : Selects P [] []
| Selects_keep x l l' : P x -> Selects P l l' -> Selects P (x :: l) (x :: l')
| Selects_drop x l l' : ~ P x -> Selects P l l' -> Selects P (x :: l) l'.

(** [Subsequence s l]: [s] is [l] with some elements left out. *)
Inductive Subsequence {A : Type} : list A -> list A -> Prop :=
| Subsequence_nil : Subsequence [] []
| Subsequence_keep x s l : Subsequence s l -> Subsequence (x :: s) (x :: l)
| Subsequence_skip x s l : Subsequence s l -> Subsequence s (x :: l).

(** The order the sort works by. *)
Definition le (a b : string) : Prop := JS.leb a b = true.

(** The sum of the succeeded counts. *)
Definition sumSucceeded (runResults : list RunResult) : Z :=
  fold_right Z.add 0%Z (map succeeded runResults).

(** A diagnostic: its first line, then a line per item, in order, each
    after a newline and a tab. *)
Definition diagnostic (header : string) (items : list string) : string :=
  (header ++ fold_right (fun x rest => nl_tab ++ x ++ rest) "" items)%string.

(** ** Scenarios

    Concrete collaborators to run the coordinator on: a mutant is the path
    of its file, the generator makes one per file, the matcher changes
    nothing and the runner reports every mutant by its name. *)

Module Scenario.

Definition collaborators (inputFiles : list InputFile) (baseline : list RunResult)
    (wrap : Outcome MaybePromise) : Collaborators string string unit :=
  mkCollaborators string string unit
    (fun _ => mkReporter wrap)
    (fun _ => tt)
    (fun _ _ => Fulfilled inputFiles)
    (fun _ _ _ _ =>
       mkTestRunnerOrchestrator string string (Fulfilled baseline)
         (fun mutants => Fulfilled mutants))
    (fun _ paths => Fulfilled paths)
    (fun mutants _ => Fulfilled mutants).

Definition config : JsVal :=
  JObj false
    [("mutate", JObj false [("0", JStr "src/a.js")]);
     ("files", JObj false [("0", JStr "src/a.js"); ("1", JStr "test/a.js")]);
     ("logLevel", JStr "info")].

Definition inputFiles : list InputFile :=
  [mkInputFile "src/a.js" true; mkInputFile "test/a.js" false;
   mkInputFile "src/b.js" true].

(** Scenario A: ten tests, all of them succeed. *)
Definition cleanBaseline : list RunResult :=
  [mkRunResult ["adds numbers"] Complete 4 0 [];
   mkRunResult ["subtracts numbers"] Complete 6 0 []].

(** Scenario B: the same test fails in two batches and a run errors. *)
Definition failingBaseline : list RunResult :=
  [mkRunResult ["adds numbers"] Complete 0 1 [];
   mkRunResult ["adds numbers"] Complete 0 1 [];
   mkRunResult [] Error 0 0 ["timeout"]].

(** Two runs end in an error with the same message. *)
Definition erroringBaseline : list RunResult :=
  [mkRunResult [] Error 0 0 ["timeout"];
   mkRunResult [] Error 0 0 ["timeout"]].

(** A run that timed out next to a clean one. *)
Definition timedOutBaseline : list RunResult :=
  [mkRunResult ["adds numbers"] Complete 4 0 [];
   mkRunResult ["loops"] Timeout 0 0 []].

(** The sample of the deduplication property. *)
Definition sampleBaseline : list RunResult :=
  [mkRunResult ["b"; "a"] Complete 0 2 [];
   mkRunResult ["a"; "c"] Complete 1 1 []].

(** The collaborators of each scenario; in the clean one the reporter wraps
    up with a promise. *)
Definition clean : Collaborators string string unit :=
  collaborators inputFiles cleanBaseline (Fulfilled (APromise (Fulfilled tt))).

Definition failing : Collaborators string string unit :=
  collaborators inputFiles failingBaseline (Fulfilled NotAPromise).

Definition erroring : Collaborators string string unit :=
  collaborators inputFiles erroringBaseline (Fulfilled NotAPromise).

Definition timedOut : Collaborators string string unit :=
  collaborators inputFiles timedOutBaseline (Fulfilled NotAPromise).

(** A store with one array over the runs of [timedOutBaseline], the second
    run twice. *)
Definition store : Store.store :=
  Store.mkStore [[0; 1; 1]]
    (fun r => nth r timedOutBaseline (mkRunResult [] Complete 0 0 [])).

(** A constructor whose single config writer sets the test runner. *)
Definition readConfig (options : list (string * JsVal)) : JsVal :=
  JObj false options.

Definition writer : ConfigWriter :=
  fun cfg =>
    match mutateAt [] (Assign "testRunner" (JStr "karma")) cfg with
    | Some cfg' => cfg'
    | None => cfg
    end.

Definition process : Process :=
  mkProcess JUndefined [("karma", writer)] [].

End Scenario.

(** ** The command line

    The function at the end of the file: the two list options are split at
    the commas, the state commander keeps on the [program] object is
    deleted, and what is left is the options of [new Stryker(program)]. *)

Module Cli.

(** [i.charAt(0) === '_']. *)
Definition startsWithUnderscore (i : string) : bool :=
  match i with
  | String c _ => Ascii.eqb c "_"
  | EmptyString => false
  end.

(** The four properties deleted by name. *)
Definition commanderState : list string :=
  ["options"; "rawArgs"; "args"; "commands"].

(** The four [delete] statements, then the [for (let i in program)] loop:
    the keys are those the object has when the loop starts, and the loop
    deletes none but the one it is at. [program] is the list of the own
    properties of the object. *)
Definition cleanUp (program : list (string * JsVal)) : list (string * JsVal) :=
  let program := removeKey "options" program in
  let program := removeKey "rawArgs" program in
  let program := removeKey "args" program in
  let program := removeKey "commands" program in
  fold_left
    (fun prog i => if startsWithUnderscore i then removeKey i prog else prog)
    (map fst program) program.

(** [program['logLevel'] || 'info']. *)
Definition logLevel (program : list (string * JsVal)) : JsVal :=
  if truthyVal (getProp "logLevel" (JObj false program))
  then getProp "logLevel" (JObj false program)
  else JStr "info".

(** Whether a property outlives [cleanUp]. *)
Definition kept (kv : string * JsVal) : bool :=
  negb (existsb (String.eqb (fst kv)) commanderState)
  && negb (startsWithUnderscore (fst kv)).

(** [Array.prototype.join(',')]. *)
Definition join (pieces : list string) : string := String.concat "," pieces.

(** The number of commas of a string. *)
Fixpoint commas (val : string) : nat :=
  match val with
  | EmptyString => 0
  | String c rest => (if Ascii.eqb c "," then 1 else 0) + commas rest
  end.

(** [list(val)]: [val.split(',')]. The piece being read is the head of the
    result for the rest of the string. *)
Fixpoint list (val : string) : Datatypes.list string :=
  match val with
  | EmptyString => [EmptyString]
  | String c rest =>
      if Ascii.eqb c "," then EmptyString :: list rest
      else
        match list rest with
        | piece :: pieces => String c piece :: pieces
        | [] => [String c EmptyString]
        end
  end.

End Cli.

Section Main.

Context {Mutant MutantResult TestSelector : Type}.
Variable env : Collaborators Mutant MutantResult TestSelector.
Variable readConfig : JsVal -> JsVal.
Variable load : JsVal -> list (string * ConfigWriter) -> list (string * ConfigWriter).
Variable isDebugEnabled : JsVal -> bool.
Variable stringify : JsVal -> string.

(** The body of [run()] after the command line is parsed into [program]:
    the run of the coordinator and the process state it leaves. The promise
    [runMutationTest] returns is dropped. *)
Definition main (program : list (string * JsVal)) (p : Process)
  : (Outcome (list MutantResult) * list (Event Mutant)) * Process :=
  let p := mkProcess (Cli.logLevel program) (configWriters p) (logged p) in
  let created :=
    newStryker JsVal readConfig load isDebugEnabled stringify
      (JObj false (Cli.cleanUp program)) p in
  (run env (config (fst created)), snd created).

End Main.

(** ** The stages in order *)

Section Order.

Context {Mutant : Type}.



End Order.

(** Every message of every run that ended in an error, in the order of the
    runs. *)
Definition reportedErrors (runResults : list RunResult) : list string :=
  List.concat (map errorMessages
    (filter (fun r => TestResult_eqb (result r) Error) runResults)).

(** More scenarios: a commander object after parsing, and collaborators
    that fail. *)
Module Scenario2.

Definition program : list (string * JsVal) :=
  [("commands", JObj false []);
   ("options", JObj false []);
   ("_execs", JObj false []);
   ("_name", JStr "stryker");
   ("rawArgs", JObj false [("0", JStr "node")]);
   ("mutate", JObj false [("0", JStr "src/a.js")]);
   ("args", JObj false []);
   ("logLevel", JStr "debug")].

(** The file resolution is rejected. *)
Definition unresolved : Collaborators string string unit :=
  mkCollaborators string string unit
    (fun _ => mkReporter (Fulfilled NotAPromise))
    (fun _ => tt)
    (fun _ _ => Rejected (mkError "no files"))
    (fun _ _ _ _ =>
       mkTestRunnerOrchestrator string string (Fulfilled [])
         (fun mutants => Fulfilled mutants))
    (fun _ paths => Fulfilled paths)
    (fun mutants _ => Fulfilled mutants).

(** The mutant generator throws after a clean baseline. *)
Definition generatorThrows : Collaborators string string unit :=
  mkCollaborators string string unit
    (fun _ => mkReporter (Fulfilled NotAPromise))
    (fun _ => tt)
    (fun _ _ => Fulfilled Scenario.inputFiles)
    (fun _ _ _ _ =>
       mkTestRunnerOrchestrator string string (Fulfilled Scenario.cleanBaseline)
         (fun mutants => Fulfilled mutants))
    (fun _ _ => Rejected (mkError "syntax error"))
    (fun mutants _ => Fulfilled mutants).

End Scenario2.

(** * Properties *)

(** ** The order on strings *)

Lemma leb_iff (a b : string) :
  JS.leb a b = true <-> a = b \/ String_as_OT.lt a b.
Proof.
  unfold JS.leb.
  destruct (String_as_OT.compare_spec a b) as [E | L | G].
  - split; auto.
  - split; auto.
  - split; [discriminate |].
    intros [E | L]; exfalso.
    + subst. exact (StrictOrder_Irreflexive _ G).
    + exact (StrictOrder_Irreflexive _ (StrictOrder_Transitive _ _ _ L G)).
Qed.

Lemma leb_false (a b : string) : JS.leb a b = false -> String_as_OT.lt b a.
Proof.
  unfold JS.leb.
  destruct (String_as_OT.compare_spec a b); try discriminate. auto.
Qed.

Lemma le_refl (a : string) : le a a.
Proof. apply leb_iff. now left. Qed.

Lemma le_trans (a b c : string) : le a b -> le b c -> le a c.
Proof.
  unfold le. rewrite !leb_iff.
  intros [-> | L1] [-> | L2]; auto.
  right. exact (StrictOrder_Transitive _ _ _ L1 L2).
Qed.

Lemma le_antisym (a b : string) : le a b -> le b a -> a = b.
Proof.
  unfold le. rewrite !leb_iff.
  intros [-> | L1] [E | L2]; auto.
  exfalso. exact (StrictOrder_Irreflexive _ (StrictOrder_Transitive _ _ _ L1 L2)).
Qed.

Lemma lt_le (a b : string) : String_as_OT.lt a b -> le a b.
Proof. intros L. apply leb_iff. now right. Qed.

Lemma le_neq_lt (a b : string) : le a b -> a <> b -> String_as_OT.lt a b.
Proof. unfold le. rewrite leb_iff. intros [E | L] N; [contradiction | exact L]. Qed.

(** ** [JS.sort] sorts, and nothing else would do *)

Lemma insert_perm (x : string) (l : list string) :
  Permutation (JS.insert x l) (x :: l).
Proof.
  induction l as [| y l IH]; simpl.
  - apply Permutation_refl.
  - destruct (JS.leb x y).
    + apply Permutation_refl.
    + eapply Permutation_trans.
      * apply perm_skip. exact IH.
      * apply perm_swap.
Qed.

Lemma sort_perm (l : list string) : Permutation (JS.sort l) l.
Proof.
  induction l as [| x l IH]; simpl.
  - apply perm_nil.
  - eapply Permutation_trans.
    + apply insert_perm.
    + apply perm_skip. exact IH.
Qed.

Lemma sort_In (l : list string) (x : string) : In x (JS.sort l) <-> In x l.
Proof.
  split; apply Permutation_in.
  - apply sort_perm.
  - apply Permutation_sym, sort_perm.
Qed.

Lemma insert_sorted (x : string) (l : list string) :
  StronglySorted le l -> StronglySorted le (JS.insert x l).
Proof.
  induction l as [| y l IH]; simpl; intros S.
  - constructor; constructor.
  - inversion S as [| ? ? Sl Fy]; subst.
    destruct (JS.leb x y) eqn:C.
    + constructor; [exact S |].
      constructor; [exact C |].
      eapply Forall_impl; [| exact Fy].
      intros z Hz. exact (le_trans _ _ _ C Hz).
    + constructor; [exact (IH Sl) |].
      apply Forall_forall. intros z Hz.
      apply (Permutation_in _ (insert_perm x l)) in Hz.
      destruct Hz as [<- | Hz].
      * apply lt_le, leb_false, C.
      * rewrite Forall_forall in Fy. exact (Fy z Hz).
Qed.

Lemma sort_sorted (l : list string) : StronglySorted le (JS.sort l).
Proof.
  induction l as [| x l IH]; simpl.
  - constructor.
  - apply insert_sorted, IH.
Qed.

(** Whatever algorithm the engine runs, a sorted rearrangement of the array
    is this one. *)
Lemma sorted_perm_unique (l1 l2 : list string) :
  StronglySorted le l1 -> StronglySorted le l2 -> Permutation l1 l2 -> l1 = l2.
Proof.
  revert l2. induction l1 as [| x l1 IH]; intros l2 S1 S2 P.
  - apply Permutation_nil in P. now subst.
  - destruct l2 as [| y l2].
    + apply Permutation_sym, Permutation_nil in P. discriminate.
    + inversion S1 as [| ? ? S1' F1]; subst.
      inversion S2 as [| ? ? S2' F2]; subst.
      rewrite Forall_forall in F1, F2.
      assert (E : x = y).
      { assert (Hx : In x (y :: l2)) by (apply (Permutation_in _ P); now left).
        assert (Hy : In y (x :: l1))
          by (apply (Permutation_in _ (Permutation_sym P)); now left).
        destruct Hx as [-> | Hx]; [reflexivity |].
        destruct Hy as [-> | Hy]; [reflexivity |].
        apply le_antisym; [apply F1, Hy | apply F2, Hx]. }
      subst y. f_equal.
      apply IH; auto.
      eapply Permutation_cons_inv. exact P.
Qed.

Lemma sort_unique (l s : list string) :
  StronglySorted le s -> Permutation s l -> s = JS.sort l.
Proof.
  intros S P. apply sorted_perm_unique; auto.
  - apply sort_sorted.
  - eapply Permutation_trans; [exact P | apply Permutation_sym, sort_perm].
Qed.

(** Sorted and without a repetition is strictly increasing. *)
Lemma sorted_nodup_strict (l : list string) :
  StronglySorted le l -> NoDup l -> StronglySorted String_as_OT.lt l.
Proof.
  induction 1 as [| x l S IH F]; intros N.
  - constructor.
  - inversion N as [| ? ? Nx Nl]; subst.
    constructor; [apply IH, Nl |].
    rewrite Forall_forall in F |- *.
    intros y Hy. apply le_neq_lt; [apply F, Hy |].
    intros E. subst y. contradiction.
Qed.

Lemma strict_sorted_nodup (l : list string) :
  StronglySorted String_as_OT.lt l -> NoDup l.
Proof.
  induction 1 as [| x l S IH F]; constructor; auto.
  intros Hx. rewrite Forall_forall in F.
  exact (StrictOrder_Irreflexive _ (F x Hx)).
Qed.

(** ** [JS.uniq] *)

Lemma mem_In (x : string) (l : list string) : JS.mem x l = true <-> In x l.
Proof.
  unfold JS.mem. rewrite existsb_exists. split.
  - intros [y [Hy E]]. apply String.eqb_eq in E. now subst.
  - intros H. exists x. split; [exact H | apply String.eqb_refl].
Qed.

Lemma mem_not_In (x : string) (l : list string) : JS.mem x l = false <-> ~ In x l.
Proof.
  rewrite <- mem_In. destruct (JS.mem x l); split; congruence.
Qed.

Lemma uniq_from_In (l seen : list string) (x : string) :
  In x (JS.uniq_from seen l) <-> In x l /\ ~ In x seen.
Proof.
  revert seen. induction l as [| y l IH]; intros seen; simpl.
  - tauto.
  - destruct (JS.mem y seen) eqn:M.
    + apply mem_In in M. rewrite IH. split.
      * tauto.
      * intros [[-> | H] N]; [contradiction | tauto].
    + apply mem_not_In in M. simpl. rewrite IH. simpl. split.
      * intros [-> | [H N]]; [tauto |]. tauto.
      * intros [[-> | H] N]; [tauto |].
        destruct (string_dec y x) as [-> | D]; [tauto |].
        right. split; [exact H |]. intros [E | S]; tauto.
Qed.

Lemma uniq_from_NoDup (l seen : list string) : NoDup (JS.uniq_from seen l).
Proof.
  revert seen. induction l as [| y l IH]; intros seen; simpl.
  - constructor.
  - destruct (JS.mem y seen).
    + apply IH.
    + constructor; [| apply IH].
      rewrite uniq_from_In. simpl. tauto.
Qed.

Lemma uniq_In (l : list string) (x : string) : In x (JS.uniq l) <-> In x l.
Proof. unfold JS.uniq. rewrite uniq_from_In. simpl. tauto. Qed.

Lemma uniq_NoDup (l : list string) : NoDup (JS.uniq l).
Proof. apply uniq_from_NoDup. Qed.

(** ** The classification of a run *)

Lemma TestResult_eqb_eq (a b : TestResult) : TestResult_eqb a b = true <-> a = b.
Proof. destruct a, b; simpl; split; congruence. Qed.

Lemma truthy_iff (n : Z) : JS.truthy n = true <-> n <> 0%Z.
Proof.
  unfold JS.truthy. destruct (Z.eqb_spec n 0); simpl; split; congruence.
Qed.

Lemma isUnsuccessful_iff (r : RunResult) :
  isUnsuccessful r = true <-> Unsuccessful r.
Proof.
  unfold isUnsuccessful, Unsuccessful, JS.truthy.
  destruct (Z.eqb_spec (failed r) 0) as [Z | NZ], (result r);
    simpl; split; intros H; try congruence; auto.
  all: try (right; split; congruence).
  all: try (left; congruence).
  all: destruct H as [H | [_ H]]; congruence.
Qed.

Lemma isUnsuccessful_false (r : RunResult) :
  isUnsuccessful r = false <-> result r = Complete /\ failed r = 0%Z.
Proof.
  unfold isUnsuccessful, JS.truthy.
  destruct (Z.eqb_spec (failed r) 0) as [Z | NZ], (result r);
    simpl; split; intros H; try congruence; auto.
  all: destruct H; congruence.
Qed.

Lemma filter_Selects {A : Type} (f : A -> bool) (P : A -> Prop) (l : list A) :
  (forall x, f x = true <-> P x) -> Selects P l (filter f l).
Proof.
  intros R. induction l as [| x l IH]; simpl.
  - constructor.
  - destruct (f x) eqn:F.
    + apply Selects_keep; [now apply R | exact IH].
    + apply Selects_drop; [| exact IH].
      intros Px. apply R in Px. congruence.
Qed.

(** [Selects] leaves one answer only. *)
Lemma Selects_functional {A : Type} (P : A -> Prop) (l s1 s2 : list A) :
  Selects P l s1 -> Selects P l s2 -> s1 = s2.
Proof.
  intros H1. revert s2.
  induction H1 as [| x l s1 Px H1 IH | x l s1 Nx H1 IH]; intros s2 H2;
    inversion H2; subst; try contradiction; auto.
  f_equal. auto.
Qed.

Lemma filter_none {A : Type} (f : A -> bool) (l : list A) :
  (forall x, In x l -> f x = false) -> filter f l = [].
Proof.
  induction l as [| x l IH]; intros H; simpl; [reflexivity |].
  rewrite (H x (or_introl eq_refl)). apply IH. intros y Hy. apply H. now right.
Qed.

Lemma filter_Subsequence {A : Type} (f : A -> bool) (l : list A) :
  Subsequence (filter f l) l.
Proof.
  induction l as [| x l IH]; simpl.
  - constructor.
  - destruct (f x); constructor; exact IH.
Qed.

Lemma Subsequence_In {A : Type} (s l : list A) (x : A) :
  Subsequence s l -> In x s -> In x l.
Proof.
  induction 1 as [| y s l H IH | y s l H IH]; simpl; intros Hx; auto.
  destruct Hx; auto.
Qed.

Lemma unsuccessful_In (runResults : list RunResult) (r : RunResult) :
  In r (filterOutUnsuccesfulResults runResults) <-> In r runResults /\ Unsuccessful r.
Proof.
  unfold filterOutUnsuccesfulResults.
  rewrite filter_In, isUnsuccessful_iff. tauto.
Qed.

(** C2: [filterOutUnsuccesfulResults] returns exactly the runs whose status
    is not Complete, or is Complete with a failed count that is not zero:
    every such run, as often as it occurs and in its place, and no other
    run; a list of runs that are all Complete with zero failed gives the
    empty list. *)
Theorem filterOutUnsuccesfulResults_exact (runResults : list RunResult) :
  Selects Unsuccessful runResults (filterOutUnsuccesfulResults runResults)
  /\ (forall r, In r (filterOutUnsuccesfulResults runResults)
                <-> In r runResults /\ Unsuccessful r)
  /\ ((forall r, In r runResults -> result r = Complete /\ failed r = 0%Z)
      -> filterOutUnsuccesfulResults runResults = []).
Proof.
  split; [apply filter_Selects, isUnsuccessful_iff |].
  split; [intros r; apply unsuccessful_In |].
  intros H. apply filter_none. intros r Hr.
  now apply isUnsuccessful_false, H.
Qed.

(** The theorem at scenario A, where every run is Complete with no failure. *)
Lemma filterOutUnsuccesfulResults_exact_witness :
  filterOutUnsuccesfulResults Scenario.cleanBaseline = [].
Proof.
  apply (proj2 (proj2 (filterOutUnsuccesfulResults_exact Scenario.cleanBaseline))).
  intros r [<- | [<- | []]]; split; reflexivity.
Defined.

(** ** The filter on references *)

Section StoreFilter.

Import Store.

Lemma callback_reads (x : ref) (h : store) : callback x h = (keeps h x, h).
Proof. reflexivity. Qed.

(** The loop of [Array_filter] from index [length done] on. *)
Lemma filter_loop (a : ref) (h : store) (todo done kept : list ref) :
  elements a h = done ++ todo ->
  fold_left (filterStep a callback)
    (seq (List.length done) (List.length todo)) (kept, h)
  = (kept ++ filter (keeps h) todo, h).
Proof.
  revert done kept. induction todo as [| x todo IH]; intros done kept E.
  - simpl. now rewrite app_nil_r.
  - assert (N : nth_error (elements a h) (List.length done) = Some x).
    { rewrite E, nth_error_app2 by lia. now rewrite Nat.sub_diag. }
    cbn [List.length seq fold_left filter].
    unfold filterStep at 2. rewrite N, callback_reads.
    replace (S (List.length done)) with (List.length (done ++ [x]))
      by (rewrite length_app; simpl; lia).
    rewrite IH by (now rewrite <- app_assoc).
    destruct (keeps h x); [now rewrite <- app_assoc | reflexivity].
Qed.

Lemma Array_filter_callback (a : ref) (h : store) :
  Array_filter a callback h
  = (List.length (arrays h),
     mkStore (arrays h ++ [filter (keeps h) (elements a h)]) (objects h)).
Proof.
  unfold Array_filter.
  pose proof (filter_loop a h (elements a h) [] [] eq_refl) as L.
  change (List.length (@nil ref)) with 0 in L.
  now rewrite L.
Qed.

Lemma elements_fresh (h : store) (l : list ref) :
  elements (List.length (arrays h)) (mkStore (arrays h ++ [l]) (objects h)) = l.
Proof.
  unfold elements. simpl. rewrite app_nth2 by lia. now rewrite Nat.sub_diag.
Qed.

Lemma elements_kept (a : ref) (h : store) (l : list ref) :
  a < List.length (arrays h) ->
  elements a (mkStore (arrays h ++ [l]) (objects h)) = elements a h.
Proof.
  intros L. unfold elements. simpl. now rewrite app_nth1.
Qed.

End StoreFilter.

(** C10: [filterOutUnsuccesfulResults] only reads and keeps the order. The
    list it returns is a subsequence of its input, each of its elements is
    an element of the input; on references, the array it returns is a new
    one, the run results are the ones the input refers to, and every array
    that was there, the input among them, and every run result are as
    they were. *)
Theorem filterOutUnsuccesfulResults_frame
    (runResults : list RunResult) (a : Store.ref) (h : Store.store) :
  let out := Store.filterOutUnsuccesfulResults a h in
  Subsequence (filterOutUnsuccesfulResults runResults) runResults
  /\ (forall r, In r (filterOutUnsuccesfulResults runResults) -> In r runResults)
  /\ Subsequence (Store.elements (fst out) (snd out)) (Store.elements a h)
  /\ map (Store.objects (snd out)) (Store.elements (fst out) (snd out))
     = filterOutUnsuccesfulResults (map (Store.objects h) (Store.elements a h))
  /\ Store.objects (snd out) = Store.objects h
  /\ (forall b, b < List.length (Store.arrays h) ->
        Store.elements b (snd out) = Store.elements b h)
  /\ fst out = List.length (Store.arrays h).
Proof.
  unfold Store.filterOutUnsuccesfulResults. rewrite Array_filter_callback.
  cbv zeta. cbn [fst snd]. rewrite elements_fresh.
  split; [apply filter_Subsequence |].
  split; [intros r Hr; eapply Subsequence_In;
          [apply filter_Subsequence | exact Hr] |].
  split; [apply filter_Subsequence |].
  split.
  - cbn [Store.objects]. unfold filterOutUnsuccesfulResults.
    induction (Store.elements a h) as [| x l IH]; simpl; [reflexivity |].
    unfold Store.keeps at 1. cbn [Store.callback fst]. fold (isUnsuccessful (Store.objects h x)).
    destruct (isUnsuccessful (Store.objects h x)); simpl; now rewrite IH.
  - split; [reflexivity |].
    split; [| reflexivity].
    intros b Hb. now apply elements_kept.
Qed.

(** ** The shape of a run *)

Section Runs.

Context {Mutant MutantResult TestSelector : Type}.
Variable env : Collaborators Mutant MutantResult TestSelector.
Variable config : JsVal.

Lemma logFailedTests_events (unsuccessfulTests : list RunResult)
    (tr : list (Event Mutant)) :
  logFailedTests unsuccessfulTests tr
  = (Fulfilled tt, tr ++ failureEvents unsuccessfulTests).
Proof.
  unfold logFailedTests, failureEvents, bind, when, emit, ret.
  destruct (0 <? List.length (failedSpecNames unsuccessfulTests))%nat,
           (0 <? List.length (errors unsuccessfulTests))%nat;
    simpl; rewrite <- ?app_assoc, ?app_nil_r; reflexivity.
Qed.

(** A baseline with an unsuccessful run: the diagnostics, then the throw. *)
Lemma run_gate_failed (inputFiles : list InputFile) (runResults : list RunResult) :
  Baseline env config inputFiles runResults ->
  filterOutUnsuccesfulResults runResults <> [] ->
  run env config
  = (Rejected InitialRunFailed,
     baselineEvents config inputFiles
     ++ failureEvents (filterOutUnsuccesfulResults runResults)).
Proof.
  intros [R I] N. unfold run, runMutationTest, bind, call, ret, throw.
  fold (theReporter env config). rewrite R. cbn [app].
  fold (theOrchestrator env config inputFiles). rewrite I.
  destruct (filterOutUnsuccesfulResults runResults) as [| r l] eqn:U;
    [contradiction |].
  cbn [List.length Nat.eqb]. rewrite logFailedTests_events. reflexivity.
Qed.

(** A clean baseline: the count is logged, the generator is called; what
    follows depends on how each collaborator answers. *)
Lemma run_clean (inputFiles : list InputFile) (runResults : list RunResult) :
  Baseline env config inputFiles runResults ->
  filterOutUnsuccesfulResults runResults = [] ->
  let tr0 :=
    baselineEvents config inputFiles
    ++ [Log Info ("Initial test run succeeded. Ran "
                  ++ JS.showZ (totalAmountOfTests runResults) ++ " tests.")%string;
        GenerateMutants (filesToMutate inputFiles)] in
  run env config =
  match generateMutants env (theReporter env config) (filesToMutate inputFiles) with
  | Rejected e => (Rejected e, tr0)
  | Pending => (Pending, tr0)
  | Fulfilled mutants =>
      let tr1 :=
        tr0 ++ [Log Info (JS.showZ (Z.of_nat (List.length mutants))
                          ++ " Mutant(s) generated")%string;
                MatchWithMutants mutants runResults] in
      match matchWithMutants env mutants runResults with
      | Rejected e => (Rejected e, tr1)
      | Pending => (Pending, tr1)
      | Fulfilled matched =>
          match runMutations (theOrchestrator env config inputFiles) matched with
          | Rejected e => (Rejected e, tr1 ++ [RunMutations matched])
          | Pending => (Pending, tr1 ++ [RunMutations matched])
          | Fulfilled mutantResults =>
              wrapUpStep env config mutantResults (tr1 ++ [RunMutations matched])
          end
      end
  end.
Proof.
  intros [R I] U. unfold run, runMutationTest, bind, call, ret, throw, emit,
    logInitialTestRunSucceeded, wrapUpStep, await, baselineEvents.
  fold (theReporter env config). rewrite R. cbn [app].
  fold (theOrchestrator env config inputFiles). rewrite I, U.
  cbn [List.length Nat.eqb app].
  destruct (generateMutants env (theReporter env config) (filesToMutate inputFiles))
    as [mutants | e |]; [| reflexivity | reflexivity].
  destruct (matchWithMutants env mutants runResults) as [matched | e |];
    [| reflexivity | reflexivity].
  cbn [app].
  destruct (runMutations (theOrchestrator env config inputFiles) matched)
    as [mutantResults | e |]; [| reflexivity | reflexivity].
  cbn [app].
  destruct (wrapUp (theReporter env config)) as [[| [[] | e |]] | e |];
    reflexivity.
Qed.

End Runs.

(** ** The diagnostics *)

Lemma append_assoc (a b c : string) : ((a ++ b) ++ c = a ++ b ++ c)%string.
Proof. induction a as [| ch a IH]; simpl; [reflexivity | now rewrite IH]. Qed.

Lemma append_empty_r (a : string) : (a ++ "" = a)%string.
Proof. induction a as [| ch a IH]; simpl; [reflexivity | now rewrite IH]. Qed.

Lemma appendLines_diagnostic (header : string) (items : list string) :
  appendLines header items = diagnostic header items.
Proof.
  unfold appendLines, diagnostic. revert header.
  induction items as [| x items IH]; intros header; simpl.
  - now rewrite append_empty_r.
  - rewrite IH. now rewrite !append_assoc.
Qed.

Lemma failedSpecNames_In (l : list RunResult) (n : string) :
  In n (failedSpecNames l)
  <-> exists r, In r l /\ result r = Complete /\ In n (testNames r).
Proof.
  unfold failedSpecNames, JS.flatten.
  rewrite sort_In, uniq_In, in_concat. split.
  - intros [names [Hn Hin]]. apply in_map_iff in Hn.
    destruct Hn as [r [<- Hr]]. apply filter_In in Hr.
    destruct Hr as [Hr C]. apply TestResult_eqb_eq in C. eauto.
  - intros [r [Hr [C Hin]]]. exists (testNames r). split; [| exact Hin].
    apply in_map, filter_In. split; [exact Hr |].
    now apply TestResult_eqb_eq.
Qed.

Lemma failedSpecNames_sorted (l : list RunResult) :
  StronglySorted String_as_OT.lt (failedSpecNames l).
Proof.
  unfold failedSpecNames. apply sorted_nodup_strict.
  - apply sort_sorted.
  - eapply Permutation_NoDup.
    + apply Permutation_sym, sort_perm.
    + apply uniq_NoDup.
Qed.

(** What the error list is: sorted, and every message of every run that
    ended in an error, as often as it was reported. *)
Lemma errors_sorted_perm (l : list RunResult) :
  StronglySorted le (errors l)
  /\ Permutation (errors l)
       (List.concat (map errorMessages
          (filter (fun r => TestResult_eqb (result r) Error) l))).
Proof.
  unfold errors, JS.flatten. split; [apply sort_sorted | apply sort_perm].
Qed.

Lemma length_pos_cases {A : Type} (l : list A) :
  (0 <? List.length l)%nat = match l with [] => false | _ => true end.
Proof. destruct l; reflexivity. Qed.

Section Diagnostics.

Context {Mutant : Type}.

(** The lines of [logFailedTests], read by the specification's layout. *)
Lemma failureEvents_lines (l : list RunResult) :
  logLines (@failureEvents Mutant l)
  = match failedSpecNames l with
    | [] => []
    | _ :: _ =>
        [(Err, diagnostic "One or more tests failed in the inial test run:"
                 (failedSpecNames l))]
    end
    ++ match errors l with
       | [] => []
       | _ :: _ =>
           [(Err, diagnostic "One or more tests errored in the initial test run:"
                    (errors l))]
       end.
Proof.
  unfold failureEvents, failedMessage, erroredMessage.
  rewrite !length_pos_cases, !appendLines_diagnostic.
  destruct (failedSpecNames l), (errors l); reflexivity.
Qed.

Lemma failureEvents_only_log (l : list RunResult) :
  generatorCalls (@failureEvents Mutant l) = []
  /\ matcherCalls (@failureEvents Mutant l) = []
  /\ runnerCalls (@failureEvents Mutant l) = []
  /\ wrapUpCalls (@failureEvents Mutant l) = 0.
Proof.
  unfold failureEvents.
  destruct (0 <? List.length (failedSpecNames l))%nat,
           (0 <? List.length (errors l))%nat; repeat split; reflexivity.
Qed.

End Diagnostics.

(** ** The baseline gate fails *)

Section GateFails.

Context {Mutant MutantResult TestSelector : Type}.
Variable env : Collaborators Mutant MutantResult TestSelector.
Variable config : JsVal.

(** C1: when the baseline has an unsuccessful run, [runMutationTest] is
    rejected with the error of the gate, and the history has no call of the
    mutant generator, of the matcher or of the mutation runner (nor of the
    reporter's [wrapUp]). *)
Theorem gate_failure_aborts (inputFiles : list InputFile)
    (runResults : list RunResult) :
  Baseline env config inputFiles runResults ->
  filterOutUnsuccesfulResults runResults <> [] ->
  fst (run env config) = Rejected InitialRunFailed
  /\ message InitialRunFailed = "There were failed tests in the initial test run"
  /\ generatorCalls (snd (run env config)) = []
  /\ matcherCalls (snd (run env config)) = []
  /\ runnerCalls (snd (run env config)) = []
  /\ wrapUpCalls (snd (run env config)) = 0.
Proof.
  intros B N. rewrite (run_gate_failed env config inputFiles runResults B N).
  cbn [fst snd].
  destruct (@failureEvents_only_log Mutant
              (filterOutUnsuccesfulResults runResults)) as [G [Ma [R W]]].
  unfold generatorCalls, matcherCalls, runnerCalls, wrapUpCalls in *.
  rewrite !flat_map_app, filter_app, length_app, G, Ma, R, W.
  repeat split.
Qed.

(** C3: when the gate fails, the names of the failing-tests diagnostic are
    those of the test names of the unsuccessful Complete runs, each once, in
    increasing order, and the diagnostic is its header followed by these
    names, one per line; no such line is written when there is no name.
    The names b, a, a, c over two runs give a, b, c. *)
Theorem failed_tests_diagnostic (inputFiles : list InputFile)
    (runResults : list RunResult) :
  Baseline env config inputFiles runResults ->
  filterOutUnsuccesfulResults runResults <> [] ->
  let names := failedSpecNames (filterOutUnsuccesfulResults runResults) in
  StronglySorted String_as_OT.lt names
  /\ NoDup names
  /\ (forall n, In n names <->
        exists r, In r runResults /\ result r = Complete
                  /\ failed r <> 0%Z /\ In n (testNames r))
  /\ (exists rest,
        logLines (snd (run env config))
        = match names with
          | [] => []
          | _ :: _ =>
              [(Err, diagnostic
                       "One or more tests failed in the inial test run:" names)]
          end ++ rest
        /\ forall lvl line, In (lvl, line) rest ->
             line = diagnostic "One or more tests errored in the initial test run:"
                      (errors (filterOutUnsuccesfulResults runResults)))
  /\ failedSpecNames (filterOutUnsuccesfulResults Scenario.sampleBaseline)
     = ["a"; "b"; "c"].
Proof.
  intros B N names.
  split; [apply failedSpecNames_sorted |].
  split; [apply strict_sorted_nodup, failedSpecNames_sorted |].
  split.
  - intros n. unfold names. rewrite failedSpecNames_In. split.
    + intros [r [Hr [C Hn]]].
      apply unsuccessful_In in Hr. destruct Hr as [Hr U].
      exists r. repeat split; auto.
      destruct U as [NC | [_ NZ]]; [contradiction | exact NZ].
    + intros [r [Hr [C [NZ Hn]]]]. exists r. repeat split; auto.
      apply unsuccessful_In. split; [exact Hr |].
      right. now split.
  - split; [| reflexivity].
    rewrite (run_gate_failed env config inputFiles runResults B N).
    cbn [snd]. unfold logLines at 1. rewrite flat_map_app.
    fold (logLines (@failureEvents Mutant (filterOutUnsuccesfulResults runResults))).
    rewrite failureEvents_lines. cbn [baselineEvents flat_map app].
    fold names. eexists. split; [reflexivity |].
    intros lvl line H.
    destruct (errors (filterOutUnsuccesfulResults runResults)) as [| e errs];
      [contradiction |].
    destruct H as [H | []]. now inversion H.
Qed.

(** C9: a run whose status is neither Complete nor Error is unsuccessful and
    makes the gate reject the run; it adds nothing to the failing names and
    nothing to the error messages; and when every unsuccessful run is of
    that kind, the run is rejected with the error of the gate and nothing
    is logged. *)
Theorem other_status_aborts_silently (inputFiles : list InputFile)
    (runResults : list RunResult) :
  Baseline env config inputFiles runResults ->
  (exists r, In r runResults /\ result r <> Complete /\ result r <> Error) ->
  fst (run env config) = Rejected InitialRunFailed
  /\ (forall l1 r l2, result r <> Complete -> result r <> Error ->
        In r (filterOutUnsuccesfulResults (l1 ++ r :: l2))
        /\ failedSpecNames (filterOutUnsuccesfulResults (l1 ++ r :: l2))
           = failedSpecNames (filterOutUnsuccesfulResults (l1 ++ l2))
        /\ errors (filterOutUnsuccesfulResults (l1 ++ r :: l2))
           = errors (filterOutUnsuccesfulResults (l1 ++ l2)))
  /\ ((forall r, In r (filterOutUnsuccesfulResults runResults) ->
         result r <> Complete /\ result r <> Error) ->
      run env config = (Rejected InitialRunFailed, baselineEvents config inputFiles)
      /\ logLines (snd (run env config)) = []).
Proof.
  intros B [r0 [H0 [C0 E0]]].
  assert (N : filterOutUnsuccesfulResults runResults <> []).
  { intros E.
    assert (Hin : In r0 (filterOutUnsuccesfulResults runResults)).
    { apply unsuccessful_In. split; [exact H0 | now left]. }
    rewrite E in Hin. contradiction. }
  rewrite (run_gate_failed env config inputFiles runResults B N). cbn [fst snd].
  split; [reflexivity |]. split.
  - intros l1 r l2 C E.
    assert (U : isUnsuccessful r = true) by (apply isUnsuccessful_iff; now left).
    assert (NC : TestResult_eqb (result r) Complete = false)
      by (destruct (result r); simpl; congruence).
    assert (NE : TestResult_eqb (result r) Error = false)
      by (destruct (result r); simpl; congruence).
    split.
    + apply unsuccessful_In. split.
      * apply in_or_app. right. now left.
      * now left.
    + unfold filterOutUnsuccesfulResults, failedSpecNames, errors.
      rewrite !filter_app. cbn [filter]. rewrite U.
      cbn [filter]. rewrite NC, NE. split; reflexivity.
  - intros A.
    assert (F : @failureEvents Mutant (filterOutUnsuccesfulResults runResults) = []).
    { unfold failureEvents. rewrite !length_pos_cases.
      assert (Nn : failedSpecNames (filterOutUnsuccesfulResults runResults) = []).
      { destruct (failedSpecNames (filterOutUnsuccesfulResults runResults))
          as [| n ns] eqn:En; [reflexivity |].
        assert (Hn : In n (failedSpecNames (filterOutUnsuccesfulResults runResults)))
          by (rewrite En; now left).
        apply failedSpecNames_In in Hn. destruct Hn as [r [Hr [C _]]].
        destruct (A r Hr) as [NC _]. contradiction. }
      assert (Ne : errors (filterOutUnsuccesfulResults runResults) = []).
      { unfold errors.
        replace (filter (fun r => TestResult_eqb (result r) Error)
                   (filterOutUnsuccesfulResults runResults)) with (@nil RunResult);
          [reflexivity |].
        symmetry. apply filter_none. intros r Hr.
        destruct (A r Hr) as [_ NE].
        destruct (TestResult_eqb (result r) Error) eqn:T; [| reflexivity].
        apply TestResult_eqb_eq in T. contradiction. }
      now rewrite Nn, Ne. }
    rewrite F, app_nil_r. split; reflexivity.
Qed.

End GateFails.

(** ** The baseline gate passes *)

Lemma totalAmountOfTests_from (runResults : list RunResult) (start : Z) :
  fold_left
    (fun total r =>
       if JS.truthy (succeeded r) then (total + succeeded r)%Z else total)
    runResults start
  = (start + sumSucceeded runResults)%Z.
Proof.
  unfold sumSucceeded. revert start.
  induction runResults as [| r l IH]; intros start; simpl.
  - lia.
  - rewrite IH. unfold JS.truthy.
    destruct (Z.eqb_spec (succeeded r) 0) as [E | NE]; simpl; lia.
Qed.

Lemma totalAmountOfTests_sum (runResults : list RunResult) :
  totalAmountOfTests runResults = sumSucceeded runResults.
Proof. unfold totalAmountOfTests. now rewrite totalAmountOfTests_from. Qed.

Lemma filesToMutate_Selects (inputFiles : list InputFile) :
  exists targets,
    Selects (fun f => shouldMutate f = true) inputFiles targets
    /\ filesToMutate inputFiles = map path targets.
Proof.
  exists (filter shouldMutate inputFiles). split; [| reflexivity].
  apply filter_Selects. tauto.
Qed.

Lemma filesToMutate_In (inputFiles : list InputFile) (p : string) :
  In p (filesToMutate inputFiles)
  <-> exists f, In f inputFiles /\ shouldMutate f = true /\ path f = p.
Proof.
  unfold filesToMutate. rewrite in_map_iff. split.
  - intros [f [E H]]. apply filter_In in H. exists f. tauto.
  - intros [f [H [S E]]]. exists f. split; [exact E |].
    apply filter_In. tauto.
Qed.

Lemma filesToMutate_Subsequence (inputFiles : list InputFile) :
  Subsequence (filesToMutate inputFiles) (map path inputFiles).
Proof.
  unfold filesToMutate. induction inputFiles as [| f l IH]; simpl.
  - constructor.
  - destruct (shouldMutate f); simpl; constructor; exact IH.
Qed.

Section GatePasses.

Context {Mutant MutantResult TestSelector : Type}.
Variable env : Collaborators Mutant MutantResult TestSelector.
Variable config : JsVal.

(** Every way a run goes on after a clean baseline, one goal each. *)
Ltac clean_cases B U :=
  rewrite (run_clean env config _ _ B U); cbv zeta;
  unfold wrapUpStep, baselineEvents;
  repeat match goal with
  | |- context [match ?o with
                | Fulfilled _ => _ | Rejected _ => _ | Pending => _ end] =>
      let E := fresh "E" in destruct o eqn:E
  | |- context [match ?m with NotAPromise => _ | APromise _ => _ end] =>
      destruct m
  | u : unit |- _ => destruct u
  end.

(** C5: after a clean baseline the mutant generator is called once, with
    the paths of the input files whose [shouldMutate] is true, in the order
    of the input files: a path is passed exactly when a file marked for
    mutation has it. *)
Theorem generator_receives_files_to_mutate (inputFiles : list InputFile)
    (runResults : list RunResult) :
  Baseline env config inputFiles runResults ->
  filterOutUnsuccesfulResults runResults = [] ->
  generatorCalls (snd (run env config)) = [filesToMutate inputFiles]
  /\ (exists targets,
        Selects (fun f => shouldMutate f = true) inputFiles targets
        /\ filesToMutate inputFiles = map path targets)
  /\ (forall p, In p (filesToMutate inputFiles)
                <-> exists f, In f inputFiles /\ shouldMutate f = true /\ path f = p)
  /\ Subsequence (filesToMutate inputFiles) (map path inputFiles).
Proof.
  intros B U.
  split; [clean_cases B U; reflexivity |].
  split; [apply filesToMutate_Selects |].
  split; [intros p; apply filesToMutate_In |].
  apply filesToMutate_Subsequence.
Qed.

(** C7: after a clean baseline the first line logged carries the total of
    the succeeded counts of all baseline runs, and the matcher, whenever it
    is called, is given the baseline runs as the initial run returned them;
    it is called, once, as soon as the generator has answered. *)
Theorem clean_gate_logs_total_and_feeds_matcher (inputFiles : list InputFile)
    (runResults : list RunResult) :
  Baseline env config inputFiles runResults ->
  filterOutUnsuccesfulResults runResults = [] ->
  totalAmountOfTests runResults = sumSucceeded runResults
  /\ (exists rest,
        logLines (snd (run env config))
        = (Info, ("Initial test run succeeded. Ran "
                  ++ JS.showZ (sumSucceeded runResults) ++ " tests.")%string)
          :: rest)
  /\ (forall mutants rs,
        In (mutants, rs) (matcherCalls (snd (run env config))) -> rs = runResults)
  /\ (forall mutants,
        generateMutants env (theReporter env config) (filesToMutate inputFiles)
          = Fulfilled mutants ->
        matcherCalls (snd (run env config)) = [(mutants, runResults)]).
Proof.
  intros B U. rewrite <- totalAmountOfTests_sum.
  split; [reflexivity |].
  split; [clean_cases B U; eexists; reflexivity |].
  split.
  - intros mutants rs. clean_cases B U; cbn; intros H;
      repeat destruct H as [H | H]; try contradiction; congruence.
  - intros mutants G. rewrite (run_clean env config _ _ B U). cbv zeta.
    rewrite G. unfold wrapUpStep, baselineEvents.
    repeat match goal with
    | |- context [match ?o with
                | Fulfilled _ => _ | Rejected _ => _ | Pending => _ end] =>
        destruct o
    | |- context [match ?m with NotAPromise => _ | APromise _ => _ end] =>
        destruct m
    end; reflexivity.
Qed.

(** C6: once the mutation runner has answered, [wrapUp] is called; if it
    returns a promise, the run is fulfilled only after the promise is, is
    rejected if the promise is and stays pending as long as the promise
    does; in both cases, a promise or none, the run is fulfilled with the
    mutant results the runner gave. *)
Theorem wrapUp_is_awaited (inputFiles : list InputFile)
    (runResults : list RunResult) (mutants matched : list Mutant)
    (mutantResults : list MutantResult) :
  Executed env config inputFiles runResults mutants matched mutantResults ->
  let before := executionEvents config inputFiles runResults mutants matched in
  match wrapUp (theReporter env config) with
  | Fulfilled NotAPromise =>
      run env config = (Fulfilled mutantResults, before ++ [WrapUp])
  | Fulfilled (APromise (Fulfilled _)) =>
      run env config = (Fulfilled mutantResults, before ++ [WrapUp; WrapUpAwaited])
  | Fulfilled (APromise (Rejected e)) =>
      run env config = (Rejected e, before ++ [WrapUp])
  | Fulfilled (APromise Pending) =>
      run env config = (Pending, before ++ [WrapUp])
  | Rejected e =>
      run env config = (Rejected e, before ++ [WrapUp])
  | Pending =>
      run env config = (Pending, before ++ [WrapUp])
  end.
Proof.
  intros [B [U [G [Ma R]]]] before.
  rewrite (run_clean env config _ _ B U). cbv zeta.
  rewrite G, Ma, R. unfold wrapUpStep, before, executionEvents.
  rewrite <- !app_assoc. cbn [app].
  destruct (wrapUp (theReporter env config)) as [[| [[] | e |]] | e |];
    reflexivity.
Qed.

End GatePasses.

(** ** The error messages are not deduplicated *)

(** C4, at two runs that end in an error with the same message: the list of
    error messages holds the message twice, and so does the diagnostic the
    run logs before it is rejected. *)
Theorem error_messages_repeated :
  errors (filterOutUnsuccesfulResults Scenario.erroringBaseline)
  = ["timeout"; "timeout"]
  /\ run Scenario.erroring Scenario.config
     = (Rejected InitialRunFailed,
        baselineEvents Scenario.config Scenario.inputFiles
        ++ [Log Err (diagnostic "One or more tests errored in the initial test run:"
                       ["timeout"; "timeout"])]).
Proof. split; reflexivity. Qed.

(** Scenario B of the specification, where the message occurs once. *)
Example scenario_B :
  run Scenario.failing Scenario.config
  = (Rejected InitialRunFailed,
     baselineEvents Scenario.config Scenario.inputFiles
     ++ [Log Err (diagnostic "One or more tests failed in the inial test run:"
                    ["adds numbers"]);
         Log Err (diagnostic "One or more tests errored in the initial test run:"
                    ["timeout"])]).
Proof. reflexivity. Qed.

(** ** The frozen configuration *)

(** Induction on a value, with the property at hand for every property
    value of an object. *)
Lemma JsVal_induction (P : JsVal -> Prop) :
  P JUndefined -> P JNull -> (forall b, P (JBool b)) -> (forall n, P (JNum n)) ->
  (forall s, P (JStr s)) ->
  (forall frozen props,
     Forall (fun kv : string * JsVal => P (snd kv)) props -> P (JObj frozen props)) ->
  forall v, P v.
Proof.
  intros HU HN HB HZ HS HO.
  fix IH 1. intros [| | b | n | s | frozen props].
  - exact HU.
  - exact HN.
  - apply HB.
  - apply HZ.
  - apply HS.
  - apply HO. induction props as [| [k v] props IHprops]; constructor.
    + simpl. apply IH.
    + exact IHprops.
Qed.

Lemma freezeRecursively_deepFrozen (v : JsVal) :
  deepFrozen (freezeRecursively v) = true.
Proof.
  induction v as [| | b | n | s | frozen props IH] using JsVal_induction;
    try reflexivity.
  simpl. rewrite forallb_forall. intros [k x] Hin.
  apply in_map_iff in Hin. destruct Hin as [[k' x'] [E Hin]].
  inversion E; subst. rewrite Forall_forall in IH. exact (IH _ Hin).
Qed.

Lemma freezeRecursively_contents (v : JsVal) :
  contents (freezeRecursively v) = contents v.
Proof.
  induction v as [| | b | n | s | frozen props IH] using JsVal_induction;
    try reflexivity.
  simpl. f_equal. rewrite map_map. apply map_ext_in.
  intros [k x] Hin. rewrite Forall_forall in IH. f_equal. exact (IH _ Hin).
Qed.

(** Freezing what is frozen changes nothing. *)
Lemma freezeRecursively_frozen (v : JsVal) :
  deepFrozen v = true -> freezeRecursively v = v.
Proof.
  induction v as [| | b | n | s | frozen props IH] using JsVal_induction;
    try reflexivity.
  simpl. intros H. apply andb_true_iff in H. destruct H as [-> F].
  f_equal. rewrite forallb_forall in F. rewrite Forall_forall in IH.
  rewrite <- (map_id props) at 2. apply map_ext_in.
  intros [k x] Hin. f_equal. apply (IH _ Hin). exact (F _ Hin).
Qed.

Lemma lookup_In (k : string) (props : list (string * JsVal)) (v : JsVal) :
  lookup k props = Some v -> In (k, v) props.
Proof.
  induction props as [| [k' x] props IH]; simpl; [discriminate |].
  destruct (String.eqb_spec k k') as [-> | N].
  - intros E. inversion E. now left.
  - intros E. right. exact (IH E).
Qed.

(** Nothing can be written anywhere in a value that is frozen all through. *)
Lemma deepFrozen_rejects (p : list string) (m : Mutation) (v : JsVal) :
  deepFrozen v = true -> mutateAt p m v = None.
Proof.
  revert v. induction p as [| k p IH]; intros v F.
  - destruct v as [| | b | n | s | frozen props]; try reflexivity.
    simpl in F. apply andb_true_iff in F. destruct F as [-> _]. reflexivity.
  - destruct v as [| | b | n | s | frozen props]; try reflexivity.
    simpl in F. apply andb_true_iff in F. destruct F as [_ F].
    simpl. destruct (lookup k props) as [child |] eqn:L; [| reflexivity].
    rewrite IH; [reflexivity |].
    rewrite forallb_forall in F. exact (F _ (lookup_In _ _ _ L)).
Qed.

Lemma deepFrozen_attempts (ws : list (list string * Mutation)) (v : JsVal) :
  deepFrozen v = true -> attempts ws v = v.
Proof.
  intros F. unfold attempts. induction ws as [| w ws IH]; simpl; [reflexivity |].
  unfold attempt at 2. now rewrite deepFrozen_rejects.
Qed.

(** Before the freeze a write goes through; after it, it is refused. *)
Example freeze_makes_the_difference :
  mutateAt ["mutate"] (Assign "0" (JStr "src/b.js")) Scenario.config
  = Some (JObj false
            [("mutate", JObj false [("0", JStr "src/b.js")]);
             ("files", JObj false [("0", JStr "src/a.js"); ("1", JStr "test/a.js")]);
             ("logLevel", JStr "info")])
  /\ mutateAt ["mutate"] (Assign "0" (JStr "src/b.js"))
       (freezeRecursively Scenario.config) = None.
Proof. split; reflexivity. Qed.

Section FrozenConfig.

Variable StrykerOptions : Type.
Variable readConfig : StrykerOptions -> JsVal.
Variable load : JsVal -> list (string * ConfigWriter) -> list (string * ConfigWriter).
Variable isDebugEnabled : JsVal -> bool.
Variable stringify : JsVal -> string.

Lemma newStryker_config (options : StrykerOptions) (p : Process) :
  config (fst (newStryker StrykerOptions readConfig load isDebugEnabled stringify
                 options p))
  = freezeRecursively (writtenConfig StrykerOptions readConfig load options p).
Proof. reflexivity. Qed.

(** C8: the constructor reads the configuration, lets every registered
    config writer write to it, those of the loaded plugins included, and
    freezes it last. The configuration of the constructed object reads as
    the writers left it, every object in it is frozen, every write or
    delete at any path is refused, so whatever the stages of
    [runMutationTest] attempt on it, each of them runs on the same
    configuration; freezing it again changes nothing. *)
Theorem constructor_freezes_config (options : StrykerOptions) (p : Process) :
  let this :=
    fst (newStryker StrykerOptions readConfig load isDebugEnabled stringify
           options p) in
  let written := writtenConfig StrykerOptions readConfig load options p in
  written
  = fold_left (fun cfg (w : string * ConfigWriter) => snd w cfg)
      (if truthyVal (getProp "plugins" (readConfig options))
       then load (getProp "plugins" (readConfig options)) (configWriters p)
       else configWriters p)
      (readConfig options)
  /\ config this = freezeRecursively written
  /\ contents (config this) = contents written
  /\ deepFrozen (config this) = true
  /\ (forall path m, mutateAt path m (config this) = None)
  /\ (forall ws, attempts ws (config this) = config this)
  /\ (forall (Mutant MutantResult TestSelector : Type)
             (env : Collaborators Mutant MutantResult TestSelector) ws,
        run env (attempts ws (config this)) = run env (config this))
  /\ freezeRecursively (config this) = config this.
Proof.
  intros this written. unfold this. rewrite newStryker_config. fold written.
  pose proof (freezeRecursively_deepFrozen written) as F.
  split.
  - unfold written, writtenConfig, applyConfigWriters, loadPlugins,
      setGlobalLogLevel. cbn [config configWriters].
    destruct (truthyVal (getProp "plugins" (readConfig options))); reflexivity.
  - split; [reflexivity |].
    split; [apply freezeRecursively_contents |].
    split; [exact F |].
    split; [intros path m; now apply deepFrozen_rejects |].
    split; [intros ws; now apply deepFrozen_attempts |].
    split; [intros M MR TS env ws; now rewrite deepFrozen_attempts |].
    now apply freezeRecursively_frozen.
Qed.

End FrozenConfig.

(** ** The theorems at the scenarios *)

Lemma gate_failure_aborts_witness :
  Baseline Scenario.failing Scenario.config
    Scenario.inputFiles Scenario.failingBaseline
  /\ filterOutUnsuccesfulResults Scenario.failingBaseline <> []
  /\ fst (run Scenario.failing Scenario.config) = Rejected InitialRunFailed
  /\ generatorCalls (snd (run Scenario.failing Scenario.config)) = [].
Proof.
  assert (B : Baseline Scenario.failing Scenario.config
                Scenario.inputFiles Scenario.failingBaseline)
    by (split; reflexivity).
  assert (N : filterOutUnsuccesfulResults Scenario.failingBaseline <> [])
    by discriminate.
  split; [exact B |]. split; [exact N |].
  pose proof (gate_failure_aborts Scenario.failing Scenario.config
                Scenario.inputFiles Scenario.failingBaseline B N) as T.
  split; [apply T | apply T].
Defined.

Lemma failed_tests_diagnostic_witness :
  Baseline Scenario.failing Scenario.config
    Scenario.inputFiles Scenario.failingBaseline
  /\ filterOutUnsuccesfulResults Scenario.failingBaseline <> []
  /\ NoDup (failedSpecNames (filterOutUnsuccesfulResults Scenario.failingBaseline)).
Proof.
  assert (B : Baseline Scenario.failing Scenario.config
                Scenario.inputFiles Scenario.failingBaseline)
    by (split; reflexivity).
  assert (N : filterOutUnsuccesfulResults Scenario.failingBaseline <> [])
    by discriminate.
  split; [exact B |]. split; [exact N |].
  apply (failed_tests_diagnostic Scenario.failing Scenario.config
           Scenario.inputFiles Scenario.failingBaseline B N).
Defined.

Lemma other_status_aborts_silently_witness :
  Baseline Scenario.timedOut Scenario.config
    Scenario.inputFiles Scenario.timedOutBaseline
  /\ (exists r, In r Scenario.timedOutBaseline
                /\ result r <> Complete /\ result r <> Error)
  /\ fst (run Scenario.timedOut Scenario.config) = Rejected InitialRunFailed
  /\ logLines (snd (run Scenario.timedOut Scenario.config)) = [].
Proof.
  assert (B : Baseline Scenario.timedOut Scenario.config
                Scenario.inputFiles Scenario.timedOutBaseline)
    by (split; reflexivity).
  assert (X : exists r, In r Scenario.timedOutBaseline
                        /\ result r <> Complete /\ result r <> Error).
  { exists (mkRunResult ["loops"] Timeout 0 0 []).
    split; [right; now left | split; discriminate]. }
  split; [exact B |]. split; [exact X |].
  pose proof (other_status_aborts_silently Scenario.timedOut Scenario.config
                Scenario.inputFiles Scenario.timedOutBaseline B X) as T.
  split; [apply T |].
  apply (proj2 (proj2 T)).
  intros r [<- | []]. split; discriminate.
Defined.

Lemma generator_receives_files_to_mutate_witness :
  Baseline Scenario.clean Scenario.config Scenario.inputFiles Scenario.cleanBaseline
  /\ filterOutUnsuccesfulResults Scenario.cleanBaseline = []
  /\ generatorCalls (snd (run Scenario.clean Scenario.config))
     = [["src/a.js"; "src/b.js"]].
Proof.
  assert (B : Baseline Scenario.clean Scenario.config
                Scenario.inputFiles Scenario.cleanBaseline)
    by (split; reflexivity).
  split; [exact B |]. split; [reflexivity |].
  apply (generator_receives_files_to_mutate Scenario.clean Scenario.config
           Scenario.inputFiles Scenario.cleanBaseline B eq_refl).
Defined.

Lemma clean_gate_logs_total_and_feeds_matcher_witness :
  Baseline Scenario.clean Scenario.config Scenario.inputFiles Scenario.cleanBaseline
  /\ filterOutUnsuccesfulResults Scenario.cleanBaseline = []
  /\ totalAmountOfTests Scenario.cleanBaseline = 10%Z
  /\ matcherCalls (snd (run Scenario.clean Scenario.config))
     = [(["src/a.js"; "src/b.js"], Scenario.cleanBaseline)].
Proof.
  assert (B : Baseline Scenario.clean Scenario.config
                Scenario.inputFiles Scenario.cleanBaseline)
    by (split; reflexivity).
  split; [exact B |]. split; [reflexivity |].
  pose proof (clean_gate_logs_total_and_feeds_matcher Scenario.clean
                Scenario.config Scenario.inputFiles Scenario.cleanBaseline
                B eq_refl) as T.
  split; [apply T |].
  apply (proj2 (proj2 (proj2 T))). reflexivity.
Defined.

Lemma wrapUp_is_awaited_witness :
  Executed Scenario.clean Scenario.config Scenario.inputFiles
    Scenario.cleanBaseline ["src/a.js"; "src/b.js"] ["src/a.js"; "src/b.js"]
    ["src/a.js"; "src/b.js"]
  /\ run Scenario.clean Scenario.config
     = (Fulfilled ["src/a.js"; "src/b.js"],
        executionEvents Scenario.config Scenario.inputFiles Scenario.cleanBaseline
          ["src/a.js"; "src/b.js"] ["src/a.js"; "src/b.js"]
        ++ [WrapUp; WrapUpAwaited]).
Proof.
  assert (X : Executed Scenario.clean Scenario.config Scenario.inputFiles
                Scenario.cleanBaseline ["src/a.js"; "src/b.js"]
                ["src/a.js"; "src/b.js"] ["src/a.js"; "src/b.js"])
    by (repeat split).
  split; [exact X |].
  exact (wrapUp_is_awaited Scenario.clean Scenario.config Scenario.inputFiles
           Scenario.cleanBaseline _ _ _ X).
Defined.

Lemma filterOutUnsuccesfulResults_frame_witness :
  0 < List.length (Store.arrays Scenario.store)
  /\ Store.elements 0 (snd (Store.filterOutUnsuccesfulResults 0 Scenario.store))
     = Store.elements 0 Scenario.store.
Proof.
  assert (L : 0 < List.length (Store.arrays Scenario.store)) by (simpl; lia).
  split; [exact L |].
  pose proof (filterOutUnsuccesfulResults_frame Scenario.timedOutBaseline 0
                Scenario.store) as T.
  cbv zeta in T. destruct T as [_ [_ [_ [_ [_ [K _]]]]]].
  exact (K 0 L).
Defined.

(** The constructor at a scenario: the writer's option is there, frozen
    with the rest. *)
Example constructor_at_scenario :
  config (fst (newStryker (list (string * JsVal)) Scenario.readConfig
                 (fun _ writers => writers) (fun _ => false) (fun _ => "")
                 [("logLevel", JStr "info")] Scenario.process))
  = JObj true [("logLevel", JStr "info"); ("testRunner", JStr "karma")].
Proof. reflexivity. Qed.

(** * Beyond the claims *)

(** ** The list options of the command line *)

Lemma list_nonempty (val : string) : Cli.list val <> [].
Proof.
  destruct val as [| c rest]; simpl; [discriminate |].
  destruct (Ascii.eqb c ","); [discriminate |].
  destruct (Cli.list rest); discriminate.
Qed.

Lemma join_cons_piece (c : ascii) (piece : string) (pieces : list string) :
  Cli.join (String c piece :: pieces) = String c (Cli.join (piece :: pieces)).
Proof. unfold Cli.join. destruct pieces; reflexivity. Qed.

Lemma join_cons (piece : string) (pieces : list string) :
  pieces <> [] ->
  Cli.join (piece :: pieces) = (piece ++ String "," (Cli.join pieces))%string.
Proof. unfold Cli.join. destruct pieces; [contradiction | reflexivity]. Qed.

(** X1: the pieces [list] cuts a value into, joined with commas again, are
    the value; no piece holds a comma and there is one piece more than
    there are commas, so the empty value gives one empty piece. *)
Theorem list_join (val : string) :
  Cli.join (Cli.list val) = val
  /\ Forall (fun piece => Cli.commas piece = 0) (Cli.list val)
  /\ List.length (Cli.list val) = S (Cli.commas val).
Proof.
  induction val as [| c rest [J [F L]]]; simpl.
  - repeat split. repeat constructor.
  - destruct (Ascii.eqb_spec c ",") as [-> | N].
    + split; [| split].
      * rewrite join_cons by apply list_nonempty. simpl. now rewrite J.
      * constructor; [reflexivity | exact F].
      * simpl. now rewrite L.
    + destruct (Cli.list rest) as [| piece pieces] eqn:E.
      * now apply list_nonempty in E.
      * split; [| split].
        -- rewrite join_cons_piece. now rewrite J.
        -- inversion F as [| ? ? Hp Hps]; subst. constructor; [| exact Hps].
           simpl. destruct (Ascii.eqb_spec c ","); [contradiction | exact Hp].
        -- simpl in L |- *. exact L.
Qed.

Lemma list_piece (piece : string) :
  Cli.commas piece = 0 -> Cli.list piece = [piece].
Proof.
  induction piece as [| c rest IH]; simpl; [reflexivity |].
  destruct (Ascii.eqb c ","); simpl; [discriminate |].
  intros H. now rewrite IH.
Qed.

Lemma list_piece_comma (piece rest : string) :
  Cli.commas piece = 0 ->
  Cli.list (piece ++ String "," rest) = piece :: Cli.list rest.
Proof.
  induction piece as [| c piece IH]; simpl; [reflexivity |].
  destruct (Ascii.eqb c ","); simpl; [discriminate |].
  intros H. now rewrite IH.
Qed.

(** X2: [list] undoes the join: pieces without a comma, at least one of
    them, joined with commas and given to [list], come back as they were. *)
Theorem list_of_join (pieces : list string) :
  pieces <> [] ->
  Forall (fun piece => Cli.commas piece = 0) pieces ->
  Cli.list (Cli.join pieces) = pieces.
Proof.
  induction pieces as [| piece pieces IH]; intros N F; [contradiction |].
  inversion F as [| ? ? Hp Hps]; subst.
  destruct pieces as [| next pieces].
  - simpl. now apply list_piece.
  - rewrite join_cons by discriminate.
    rewrite list_piece_comma by exact Hp.
    f_equal. apply IH; [discriminate | exact Hps].
Qed.

Lemma list_of_join_witness :
  Cli.list (Cli.join ["src/**/*.js"; "a.js"]) = ["src/**/*.js"; "a.js"].
Proof.
  apply (list_of_join ["src/**/*.js"; "a.js"]); [discriminate |].
  repeat constructor.
Defined.

(** ** The commander state *)

Lemma filter_absent_key (k : string) (props : list (string * JsVal)) :
  ~ In k (map fst props) ->
  filter (fun kv => negb (String.eqb k (fst kv))) props = props.
Proof.
  induction props as [| [k' x] props IH]; simpl; intros A; [reflexivity |].
  destruct (String.eqb_spec k k') as [-> | D]; simpl.
  - exfalso. apply A. now left.
  - f_equal. apply IH. intros H. apply A. now right.
Qed.

Lemma removeKey_filter (k : string) (props : list (string * JsVal)) :
  NoDup (map fst props) ->
  removeKey k props = filter (fun kv => negb (String.eqb k (fst kv))) props.
Proof.
  induction props as [| [k' x] props IH]; simpl; intros N; [reflexivity |].
  inversion N as [| ? ? Nk Nr]; subst.
  destruct (String.eqb_spec k k') as [-> | D]; simpl.
  - symmetry. now apply filter_absent_key.
  - f_equal. now apply IH.
Qed.

Lemma filter_keys_NoDup (f : string * JsVal -> bool) (props : list (string * JsVal)) :
  NoDup (map fst props) -> NoDup (map fst (filter f props)).
Proof.
  induction props as [| kv props IH]; simpl; intros N; [constructor |].
  inversion N as [| ? ? Nk Nr]; subst.
  destruct (f kv); simpl; [| now apply IH].
  constructor; [| now apply IH].
  intros H. apply Nk. apply in_map_iff in H. destruct H as [kv' [E H]].
  apply filter_In in H. apply in_map_iff. exists kv'. tauto.
Qed.

Lemma filter_filter_and {A : Type} (f g : A -> bool) (l : list A) :
  filter f (filter g l) = filter (fun x => g x && f x) l.
Proof.
  induction l as [| x l IH]; simpl; [reflexivity |].
  destruct (g x); simpl; [destruct (f x) |]; now rewrite IH.
Qed.

(** The loop over the keys [ks], on an object with distinct keys. *)
Lemma underscore_loop (ks : list string) (props : list (string * JsVal)) :
  NoDup (map fst props) ->
  fold_left
    (fun prog i => if Cli.startsWithUnderscore i then removeKey i prog else prog)
    ks props
  = filter
      (fun kv => negb (Cli.startsWithUnderscore (fst kv) && JS.mem (fst kv) ks))
      props.
Proof.
  revert props. induction ks as [| i ks IH]; intros props N; simpl.
  - symmetry. rewrite <- (filter_ext (fun _ => true)).
    + induction props as [| kv props IHp]; simpl; [reflexivity |].
      f_equal. apply IHp. now inversion N.
    + intros kv. now rewrite andb_false_r.
  - destruct (Cli.startsWithUnderscore i) eqn:U.
    + rewrite IH by (rewrite removeKey_filter by exact N;
                     now apply filter_keys_NoDup).
      rewrite removeKey_filter by exact N. rewrite filter_filter_and.
      apply filter_ext. intros [k x]. simpl.
      rewrite (String.eqb_sym k i).
      destruct (String.eqb_spec i k) as [-> | D]; simpl.
      * now rewrite U.
      * reflexivity.
    + rewrite IH by exact N. apply filter_ext. intros [k x]. simpl.
      rewrite (String.eqb_sym k i).
      destruct (String.eqb_spec i k) as [-> | D]; simpl; [| reflexivity].
      now rewrite U.
Qed.

Lemma lookup_filter_key (g : string -> bool) (k : string)
    (props : list (string * JsVal)) :
  lookup k (filter (fun kv => g (fst kv)) props)
  = if g k then lookup k props else None.
Proof.
  induction props as [| [k' x] props IH]; simpl.
  - now destruct (g k).
  - destruct (g k') eqn:G; simpl.
    + destruct (String.eqb_spec k k') as [-> | D].
      * now rewrite G.
      * exact IH.
    + destruct (String.eqb_spec k k') as [-> | D].
      * rewrite IH. now rewrite G.
      * exact IH.
Qed.

Lemma cleanUp_keeps_filter (program : list (string * JsVal)) :
  NoDup (map fst program) -> Cli.cleanUp program = filter Cli.kept program.
Proof.
  intros Np. unfold Cli.cleanUp.
  set (named := fun kv : string * JsVal =>
         negb (existsb (String.eqb (fst kv)) Cli.commanderState)).
  assert (D : removeKey "commands"
                (removeKey "args" (removeKey "rawArgs" (removeKey "options" program)))
              = filter named program).
  { rewrite (removeKey_filter "options") by exact Np.
    rewrite (removeKey_filter "rawArgs") by now apply filter_keys_NoDup.
    rewrite (removeKey_filter "args") by now repeat apply filter_keys_NoDup.
    rewrite (removeKey_filter "commands") by now repeat apply filter_keys_NoDup.
    rewrite !filter_filter_and. apply filter_ext. intros [k x].
    unfold named, Cli.commanderState. cbn [existsb fst].
    rewrite !(String.eqb_sym k).
    destruct (String.eqb "options" k), (String.eqb "rawArgs" k),
             (String.eqb "args" k), (String.eqb "commands" k); reflexivity. }
  cbv zeta. rewrite D.
  rewrite underscore_loop by now apply filter_keys_NoDup.
  rewrite filter_filter_and. apply filter_ext_in. intros [k x] Hin.
  unfold Cli.kept. fold (named (k, x)). destruct (named (k, x)) eqn:Nm;
    [| reflexivity].
  cbn [andb fst]. f_equal.
  assert (M : JS.mem k (map fst (filter named program)) = true).
  { apply mem_In. apply in_map_iff. exists (k, x). split; [reflexivity |].
    apply filter_In. now split. }
  rewrite M. now rewrite andb_true_r.
Qed.

(** X3: on an object whose keys are distinct, the clean-up keeps, in their
    order and with their values, exactly the properties that are not one of
    options, rawArgs, args and commands and whose name does not start with
    an underscore: reading a kept name gives what it gave before, reading
    a dropped one finds nothing, and a second clean-up changes nothing. *)
Theorem cleanUp_keeps (program : list (string * JsVal)) :
  NoDup (map fst program) ->
  Cli.cleanUp program = filter Cli.kept program
  /\ (forall k, lookup k (Cli.cleanUp program)
                = if Cli.kept (k, JUndefined) then lookup k program else None)
  /\ Cli.cleanUp (Cli.cleanUp program) = Cli.cleanUp program.
Proof.
  intros N.
  split; [now apply cleanUp_keeps_filter |]. split.
  - intros k. rewrite cleanUp_keeps_filter by exact N.
    exact (lookup_filter_key (fun k => Cli.kept (k, JUndefined)) k program).
  - rewrite (cleanUp_keeps_filter program N).
    rewrite cleanUp_keeps_filter by now apply filter_keys_NoDup.
    rewrite filter_filter_and. apply filter_ext. intros kv.
    now destruct (Cli.kept kv).
Qed.

Lemma cleanUp_keeps_witness :
  Cli.cleanUp Scenario2.program
  = [("mutate", JObj false [("0", JStr "src/a.js")]); ("logLevel", JStr "debug")].
Proof.
  assert (N : NoDup (map fst Scenario2.program)).
  { simpl. repeat constructor; simpl; intuition discriminate. }
  rewrite (proj1 (cleanUp_keeps Scenario2.program N)). reflexivity.
Defined.

(** ** Every way a run can go *)

Section AllRuns.

Context {Mutant MutantResult TestSelector : Type}.
Variable env : Collaborators Mutant MutantResult TestSelector.
Variable config : JsVal.

(** A run whose baseline does not come back. *)
Lemma run_without_baseline :
  match resolve env (getProp "mutate" config) (getProp "files" config) with
  | Fulfilled inputFiles =>
      match initialRun (theOrchestrator env config inputFiles) with
      | Fulfilled _ => True
      | Rejected e =>
          run env config = (Rejected e, baselineEvents config inputFiles)
      | Pending => run env config = (Pending, baselineEvents config inputFiles)
      end
  | Rejected e =>
      run env config
      = (Rejected e,
         [Resolve (getProp "mutate" config) (getProp "files" config)])
  | Pending =>
      run env config
      = (Pending, [Resolve (getProp "mutate" config) (getProp "files" config)])
  end.
Proof.
  unfold run, runMutationTest, bind, call, ret.
  fold (theReporter env config).
  destruct (resolve env (getProp "mutate" config) (getProp "files" config))
    as [inputFiles | e |]; cbn [app]; try reflexivity.
  fold (theOrchestrator env config inputFiles).
  destruct (initialRun (theOrchestrator env config inputFiles));
    first [reflexivity | exact I].
Qed.


(** The run rewritten by how each collaborator answers, one goal for each
    way, with the answers as hypotheses. *)
Ltac all_runs :=
  let R := fresh "R" in
  let I := fresh "I" in
  let U := fresh "U" in
  let G := fresh "G" in
  let Ma := fresh "Ma" in
  let X := fresh "X" in
  let W := fresh "W" in
  pose proof run_without_baseline as R0;
  destruct (resolve env (getProp "mutate" config) (getProp "files" config))
    as [inputFiles | e |] eqn:R;
  [ destruct (initialRun (theOrchestrator env config inputFiles))
      as [runResults | e |] eqn:I;
    [ clear R0;
      destruct (filterOutUnsuccesfulResults runResults) as [| bad others] eqn:U;
      [ rewrite (run_clean env config inputFiles runResults (conj R I) U);
        cbv zeta;
        destruct (generateMutants env (theReporter env config)
                    (filesToMutate inputFiles)) as [mutants | e |] eqn:G;
        [ destruct (matchWithMutants env mutants runResults)
            as [matched | e |] eqn:Ma;
          [ destruct (runMutations (theOrchestrator env config inputFiles) matched)
              as [mutantResults | e |] eqn:X;
            [ unfold wrapUpStep;
              destruct (wrapUp (theReporter env config))
                as [[| [[] | e |]] | e |] eqn:W
            | | ]
          | | ]
        | | ]
      | rewrite (run_gate_failed env config inputFiles runResults (conj R I));
        [ rewrite U | rewrite U; discriminate ] ]
    | rewrite R0; clear R0
    | rewrite R0; clear R0 ]
  | rewrite R0; clear R0
  | rewrite R0; clear R0 ];
  unfold baselineEvents; cbn [fst snd].


(** X5: a run is fulfilled only through the whole chain: the baseline came
    back clean, the generator, the matcher and the runner answered, the
    result is the runner's, and [wrapUp] returned no promise or a promise
    that was fulfilled. *)
Theorem fulfilled_run_went_through (results : list MutantResult) :
  fst (run env config) = Fulfilled results ->
  exists inputFiles runResults mutants matched,
    Executed env config inputFiles runResults mutants matched results
    /\ (wrapUp (theReporter env config) = Fulfilled NotAPromise
        \/ wrapUp (theReporter env config) = Fulfilled (APromise (Fulfilled tt))).
Proof.
  all_runs; intros H; try discriminate H;
    inversion H; subst;
    exists inputFiles, runResults, mutants, matched;
    (split; [repeat split; assumption | auto]).
Qed.

(** X6: a fault of the file resolution or of the initial run is the fault
    of the run: it is rejected with the same error, nothing is logged and
    no later collaborator is called. *)
Theorem baseline_fault_propagates (e : JsError) :
  resolve env (getProp "mutate" config) (getProp "files" config) = Rejected e
  \/ (exists inputFiles,
        resolve env (getProp "mutate" config) (getProp "files" config)
          = Fulfilled inputFiles
        /\ initialRun (theOrchestrator env config inputFiles) = Rejected e) ->
  fst (run env config) = Rejected e
  /\ logLines (snd (run env config)) = []
  /\ generatorCalls (snd (run env config)) = []
  /\ matcherCalls (snd (run env config)) = []
  /\ runnerCalls (snd (run env config)) = []
  /\ wrapUpCalls (snd (run env config)) = 0.
Proof.
  intros F. pose proof run_without_baseline as R0.
  destruct F as [R | [inputFiles [R I]]]; rewrite R in R0.
  - rewrite R0. repeat split.
  - rewrite I in R0. rewrite R0. repeat split.
Qed.

(** X7: the reporter is asked to wrap up exactly when the mutation runner
    has answered: a fault of a collaborator before that, or a baseline that
    is not clean, leaves the reporter without its [wrapUp]. *)
Theorem wrapUp_only_after_execution :
  wrapUpCalls (snd (run env config)) = 1
  <-> exists inputFiles runResults mutants matched mutantResults,
        Executed env config inputFiles runResults mutants matched mutantResults.
Proof.
  split.
  - all_runs; unfold wrapUpCalls; rewrite ?filter_app, ?length_app;
      try (destruct (@failureEvents_only_log Mutant (bad :: others))
             as [_ [_ [_ Wf]]];
           unfold wrapUpCalls in Wf; rewrite Wf);
      cbn; intros H; try discriminate H;
      exists inputFiles, runResults, mutants, matched, mutantResults;
      repeat split; assumption.
  - intros [inputFiles [runResults [mutants [matched [mutantResults
             [B [U [G [Ma X]]]]]]]]].
    rewrite (run_clean env config inputFiles runResults B U). cbv zeta.
    rewrite G, Ma, X. unfold wrapUpStep, baselineEvents.
    destruct (wrapUp (theReporter env config)) as [[| [[] | e |]] | e |];
      reflexivity.
Qed.

End AllRuns.

Lemma fulfilled_run_went_through_witness :
  fst (run Scenario.clean Scenario.config)
    = Fulfilled ["src/a.js"; "src/b.js"]
  /\ exists inputFiles runResults mutants matched,
       Executed Scenario.clean Scenario.config inputFiles runResults
         mutants matched ["src/a.js"; "src/b.js"]
       /\ (wrapUp (theReporter Scenario.clean Scenario.config)
             = Fulfilled NotAPromise
           \/ wrapUp (theReporter Scenario.clean Scenario.config)
              = Fulfilled (APromise (Fulfilled tt))).
Proof.
  split; [reflexivity |].
  exact (fulfilled_run_went_through Scenario.clean Scenario.config
           ["src/a.js"; "src/b.js"] eq_refl).
Defined.

Lemma baseline_fault_propagates_witness :
  fst (run Scenario2.unresolved Scenario.config) = Rejected (mkError "no files")
  /\ logLines (snd (run Scenario2.unresolved Scenario.config)) = [].
Proof.
  pose proof (baseline_fault_propagates Scenario2.unresolved Scenario.config
                (mkError "no files") (or_introl eq_refl)) as T.
  split; apply T.
Defined.

(** ** The gate decides by the runs alone *)

Lemma filter_Permutation {A : Type} (f : A -> bool) (l l' : list A) :
  Permutation l l' -> Permutation (filter f l) (filter f l').
Proof.
  induction 1 as [| x l l' P IH | x y l | l l' l'' P1 IH1 P2 IH2]; simpl.
  - constructor.
  - destruct (f x); [now constructor | exact IH].
  - destruct (f x), (f y); try apply Permutation_refl. apply perm_swap.
  - eapply Permutation_trans; eassumption.
Qed.

Lemma concat_map_Permutation {A B : Type} (g : A -> list B) (l l' : list A) :
  Permutation l l' ->
  Permutation (List.concat (map g l)) (List.concat (map g l')).
Proof.
  induction 1 as [| x l l' P IH | x y l | l l' l'' P1 IH1 P2 IH2]; simpl.
  - constructor.
  - now apply Permutation_app_head.
  - apply Permutation_app_swap_app.
  - eapply Permutation_trans; eassumption.
Qed.

Lemma sumSucceeded_Permutation (l l' : list RunResult) :
  Permutation l l' -> sumSucceeded l = sumSucceeded l'.
Proof.
  unfold sumSucceeded.
  induction 1 as [| x l l' P IH | x y l | l l' l'' P1 IH1 P2 IH2]; simpl; lia.
Qed.

Lemma failedSpecNames_le_sorted (l : list RunResult) :
  StronglySorted le (failedSpecNames l).
Proof. unfold failedSpecNames. apply sort_sorted. Qed.

Lemma errors_In (l : list RunResult) (e : string) :
  In e (errors l)
  <-> exists r, In r l /\ result r = Error /\ In e (errorMessages r).
Proof.
  unfold errors, JS.flatten. rewrite sort_In, in_concat. split.
  - intros [msgs [Hm Hin]]. apply in_map_iff in Hm.
    destruct Hm as [r [<- Hr]]. apply filter_In in Hr.
    destruct Hr as [Hr C]. apply TestResult_eqb_eq in C. eauto.
  - intros [r [Hr [C Hin]]]. exists (errorMessages r). split; [| exact Hin].
    apply in_map, filter_In. split; [exact Hr |]. now apply TestResult_eqb_eq.
Qed.

Lemma failedSpecNames_same_names (l l' : list RunResult) :
  (forall n, In n (failedSpecNames l) <-> In n (failedSpecNames l')) ->
  failedSpecNames l = failedSpecNames l'.
Proof.
  intros S. apply sorted_perm_unique; try apply failedSpecNames_le_sorted.
  apply NoDup_Permutation.
  - apply strict_sorted_nodup, failedSpecNames_sorted.
  - apply strict_sorted_nodup, failedSpecNames_sorted.
  - exact S.
Qed.

(** X8: the list of failing names depends on nothing but which names the
    Complete runs carry: two lists of runs that carry the same names, in
    whatever order, in however many runs and however often, give the same
    list. *)
Theorem failedSpecNames_by_names (l l' : list RunResult) :
  (forall n,
     (exists r, In r l /\ result r = Complete /\ In n (testNames r))
     <-> (exists r, In r l' /\ result r = Complete /\ In n (testNames r))) ->
  failedSpecNames l = failedSpecNames l'.
Proof.
  intros S. apply failedSpecNames_same_names.
  intros n. rewrite !failedSpecNames_In. apply S.
Qed.

Lemma failedSpecNames_by_names_witness :
  failedSpecNames Scenario.failingBaseline
  = failedSpecNames [mkRunResult ["adds numbers"] Complete 0 1 []].
Proof.
  apply (failedSpecNames_by_names Scenario.failingBaseline
           [mkRunResult ["adds numbers"] Complete 0 1 []]).
  intros n. split.
  - intros [r [[<- | [<- | [<- | []]]] [C H]]]; try discriminate C;
      eexists; (split; [left; reflexivity | split; [reflexivity | exact H]]).
  - intros [r [[<- | []] [C H]]].
    eexists; (split; [left; reflexivity | split; [reflexivity | exact H]]).
Defined.

(** X9: what the gate logs does not depend on the order in which the runs
    come back: lists of runs that are rearrangements of each other give the
    same failing names, the same error messages and the same total. *)
Theorem gate_ignores_run_order (runResults runResults' : list RunResult) :
  Permutation runResults runResults' ->
  failedSpecNames (filterOutUnsuccesfulResults runResults)
  = failedSpecNames (filterOutUnsuccesfulResults runResults')
  /\ errors (filterOutUnsuccesfulResults runResults)
     = errors (filterOutUnsuccesfulResults runResults')
  /\ totalAmountOfTests runResults = totalAmountOfTests runResults'
  /\ (filterOutUnsuccesfulResults runResults = []
      <-> filterOutUnsuccesfulResults runResults' = []).
Proof.
  intros P.
  assert (PU : Permutation (filterOutUnsuccesfulResults runResults)
                 (filterOutUnsuccesfulResults runResults'))
    by now apply filter_Permutation.
  split; [| split; [| split]].
  - apply failedSpecNames_same_names. intros n. rewrite !failedSpecNames_In.
    split; intros [r [Hr H]]; exists r; (split; [| exact H]).
    + exact (Permutation_in _ PU Hr).
    + exact (Permutation_in _ (Permutation_sym PU) Hr).
  - unfold errors at 2. apply sort_unique.
    + unfold errors. apply sort_sorted.
    + eapply Permutation_trans; [apply sort_perm |].
      unfold JS.flatten. apply concat_map_Permutation.
      now apply filter_Permutation.
  - rewrite !totalAmountOfTests_sum. now apply sumSucceeded_Permutation.
  - split; intros E; rewrite E in PU.
    + now apply Permutation_nil in PU.
    + now apply Permutation_sym, Permutation_nil in PU.
Qed.

Lemma gate_ignores_run_order_witness :
  errors (filterOutUnsuccesfulResults Scenario.failingBaseline)
  = errors (filterOutUnsuccesfulResults (rev Scenario.failingBaseline)).
Proof.
  apply (gate_ignores_run_order Scenario.failingBaseline
           (rev Scenario.failingBaseline)).
  apply Permutation_rev.
Defined.

(** X10: the error list is in increasing order and holds every message of
    every run that ended in an error, as often as the runs reported it and
    nothing else. *)
Theorem errors_listing (l : list RunResult) :
  StronglySorted le (errors l)
  /\ Permutation (errors l) (reportedErrors l)
  /\ (forall e, In e (errors l)
                <-> exists r, In r l /\ result r = Error
                              /\ In e (errorMessages r))
  /\ List.length (errors l) = List.length (reportedErrors l).
Proof.
  destruct (errors_sorted_perm l) as [S P].
  split; [exact S |]. split; [exact P |].
  split; [intros e; apply errors_In |].
  exact (Permutation_length P).
Qed.

Section GateDecision.

Context {Mutant MutantResult TestSelector : Type}.
Variable env : Collaborators Mutant MutantResult TestSelector.
Variable config : JsVal.

Lemma clean_generatorCalls (inputFiles : list InputFile)
    (runResults : list RunResult) :
  Baseline env config inputFiles runResults ->
  filterOutUnsuccesfulResults runResults = [] ->
  generatorCalls (snd (run env config)) = [filesToMutate inputFiles].
Proof.
  intros B U. rewrite (run_clean env config _ _ B U). cbv zeta.
  unfold wrapUpStep, baselineEvents.
  destruct (generateMutants env (theReporter env config)
              (filesToMutate inputFiles)) as [mutants | e |];
    [| reflexivity | reflexivity].
  destruct (matchWithMutants env mutants runResults) as [matched | e |];
    [| reflexivity | reflexivity].
  destruct (runMutations (theOrchestrator env config inputFiles) matched)
    as [mutantResults | e |]; [| reflexivity | reflexivity].
  destruct (wrapUp (theReporter env config)) as [[| [[] | e |]] | e |];
    reflexivity.
Qed.

(** X11: once the baseline is back, the mutant generator is called if and
    only if every run is Complete with a failed count of zero; one run that
    is not makes the run end rejected with the error of the gate. *)
Theorem gate_decision (inputFiles : list InputFile)
    (runResults : list RunResult) :
  Baseline env config inputFiles runResults ->
  (generatorCalls (snd (run env config)) = [filesToMutate inputFiles]
   <-> forall r, In r runResults -> result r = Complete /\ failed r = 0%Z)
  /\ ((exists r, In r runResults /\ Unsuccessful r) ->
      fst (run env config) = Rejected InitialRunFailed).
Proof.
  intros B. split; [split |].
  - intros G r Hr. apply isUnsuccessful_false.
    destruct (isUnsuccessful r) eqn:Ur; [| reflexivity].
    assert (N : filterOutUnsuccesfulResults runResults <> []).
    { intros E.
      assert (Hin : In r (filterOutUnsuccesfulResults runResults))
        by (apply filter_In; now split).
      rewrite E in Hin. contradiction. }
    rewrite (run_gate_failed env config inputFiles runResults B N) in G.
    cbn [snd] in G. unfold generatorCalls in G. rewrite flat_map_app in G.
    destruct (@failureEvents_only_log Mutant
                (filterOutUnsuccesfulResults runResults)) as [Gf _].
    unfold generatorCalls in Gf. rewrite Gf in G. discriminate G.
  - intros A. apply (clean_generatorCalls inputFiles runResults B).
    apply filter_none. intros r Hr. now apply isUnsuccessful_false, A.
  - intros [r [Hr Ur]].
    assert (N : filterOutUnsuccesfulResults runResults <> []).
    { intros E.
      assert (Hin : In r (filterOutUnsuccesfulResults runResults))
        by (apply unsuccessful_In; now split).
      rewrite E in Hin. contradiction. }
    now rewrite (run_gate_failed env config inputFiles runResults B N).
Qed.

(** X12: the gate rejects a run without a word exactly when no
    unsuccessful Complete run carries a test name and no run that ended in
    an error carries a message: a timeout, a failed run without names, an
    error without a message. *)
Theorem silent_abort (inputFiles : list InputFile)
    (runResults : list RunResult) :
  Baseline env config inputFiles runResults ->
  filterOutUnsuccesfulResults runResults <> [] ->
  logLines (snd (run env config)) = []
  <-> forall r, In r runResults ->
        (result r = Complete -> failed r <> 0%Z -> testNames r = [])
        /\ (result r = Error -> errorMessages r = []).
Proof.
  intros B N. rewrite (run_gate_failed env config inputFiles runResults B N).
  cbn [snd]. unfold logLines at 1. rewrite flat_map_app.
  fold (logLines (@failureEvents Mutant (filterOutUnsuccesfulResults runResults))).
  rewrite failureEvents_lines. cbn [baselineEvents flat_map app].
  split.
  - intros E r Hr.
    assert (Nn : failedSpecNames (filterOutUnsuccesfulResults runResults) = [])
      by (destruct (failedSpecNames (filterOutUnsuccesfulResults runResults)); [reflexivity | discriminate E]).
    assert (Ne : errors (filterOutUnsuccesfulResults runResults) = []).
    { rewrite Nn in E. destruct (errors (filterOutUnsuccesfulResults runResults)); [reflexivity | discriminate E]. }
    split.
    + intros C F. destruct (testNames r) as [| n ns] eqn:T; [reflexivity |].
      assert (Hn : In n (failedSpecNames (filterOutUnsuccesfulResults runResults))).
      { apply failedSpecNames_In. exists r. split; [| split; [exact C |]].
        - apply unsuccessful_In. split; [exact Hr | right; now split].
        - rewrite T. now left. }
      rewrite Nn in Hn. contradiction.
    + intros C. destruct (errorMessages r) as [| m ms] eqn:T; [reflexivity |].
      assert (Hm : In m (errors (filterOutUnsuccesfulResults runResults))).
      { apply errors_In. exists r. split; [| split; [exact C |]].
        - apply unsuccessful_In. split; [exact Hr |]. left. congruence.
        - rewrite T. now left. }
      rewrite Ne in Hm. contradiction.
  - intros A.
    assert (Nn : failedSpecNames (filterOutUnsuccesfulResults runResults) = []).
    { destruct (failedSpecNames (filterOutUnsuccesfulResults runResults)) as [| n ns] eqn:En; [reflexivity |].
      assert (Hn : In n (failedSpecNames (filterOutUnsuccesfulResults runResults))) by (rewrite En; now left).
      apply failedSpecNames_In in Hn. destruct Hn as [r [Hr [C Hin]]].
      apply unsuccessful_In in Hr. destruct Hr as [Hr [NC | [_ F]]];
        [contradiction |].
      destruct (A r Hr) as [T _]. rewrite (T C F) in Hin. contradiction. }
    assert (Ne : errors (filterOutUnsuccesfulResults runResults) = []).
    { destruct (errors (filterOutUnsuccesfulResults runResults)) as [| m ms] eqn:Em; [reflexivity |].
      assert (Hm : In m (errors (filterOutUnsuccesfulResults runResults))) by (rewrite Em; now left).
      apply errors_In in Hm. destruct Hm as [r [Hr [C Hin]]].
      apply unsuccessful_In in Hr. destruct Hr as [Hr _].
      destruct (A r Hr) as [_ T]. rewrite (T C) in Hin. contradiction. }
    now rewrite Nn, Ne.
Qed.

(** X15: after a clean baseline a fault of the generator, of the matcher
    or of the runner is the fault of the run, and the collaborators after
    the one that failed are not called: the reporter's [wrapUp] in no case,
    the runner not after the matcher failed, and neither of them nor the
    matcher after the generator failed. *)
Theorem execution_fault_propagates (inputFiles : list InputFile)
    (runResults : list RunResult) :
  Baseline env config inputFiles runResults ->
  filterOutUnsuccesfulResults runResults = [] ->
  (forall e,
     generateMutants env (theReporter env config) (filesToMutate inputFiles)
       = Rejected e ->
     fst (run env config) = Rejected e
     /\ matcherCalls (snd (run env config)) = []
     /\ runnerCalls (snd (run env config)) = []
     /\ wrapUpCalls (snd (run env config)) = 0)
  /\ (forall mutants e,
        generateMutants env (theReporter env config) (filesToMutate inputFiles)
          = Fulfilled mutants ->
        matchWithMutants env mutants runResults = Rejected e ->
        fst (run env config) = Rejected e
        /\ runnerCalls (snd (run env config)) = []
        /\ wrapUpCalls (snd (run env config)) = 0)
  /\ (forall mutants matched e,
        generateMutants env (theReporter env config) (filesToMutate inputFiles)
          = Fulfilled mutants ->
        matchWithMutants env mutants runResults = Fulfilled matched ->
        runMutations (theOrchestrator env config inputFiles) matched
          = Rejected e ->
        fst (run env config) = Rejected e
        /\ runnerCalls (snd (run env config)) = [matched]
        /\ wrapUpCalls (snd (run env config)) = 0).
Proof.
  intros B U. rewrite (run_clean env config inputFiles runResults B U).
  cbv zeta. unfold baselineEvents. split; [| split].
  - intros e G. rewrite G. repeat split.
  - intros mutants e G Ma. rewrite G, Ma. repeat split.
  - intros mutants matched e G Ma X. rewrite G, Ma, X. repeat split.
Qed.

End GateDecision.

Lemma execution_fault_propagates_witness :
  fst (run Scenario2.generatorThrows Scenario.config)
    = Rejected (mkError "syntax error")
  /\ wrapUpCalls (snd (run Scenario2.generatorThrows Scenario.config)) = 0.
Proof.
  assert (B : Baseline Scenario2.generatorThrows Scenario.config
                Scenario.inputFiles Scenario.cleanBaseline)
    by (split; reflexivity).
  destruct (execution_fault_propagates Scenario2.generatorThrows Scenario.config
              Scenario.inputFiles Scenario.cleanBaseline B eq_refl)
    as [T _].
  destruct (T (mkError "syntax error") eq_refl) as [F [_ [_ W]]].
  split; [exact F | exact W].
Defined.

Lemma gate_decision_witness :
  generatorCalls (snd (run Scenario.clean Scenario.config))
    = [filesToMutate Scenario.inputFiles]
  <-> forall r, In r Scenario.cleanBaseline -> result r = Complete /\ failed r = 0%Z.
Proof.
  apply (gate_decision Scenario.clean Scenario.config Scenario.inputFiles
           Scenario.cleanBaseline).
  split; reflexivity.
Defined.

Lemma silent_abort_witness :
  logLines (snd (run Scenario.timedOut Scenario.config)) = []
  <-> forall r, In r Scenario.timedOutBaseline ->
        (result r = Complete -> failed r <> 0%Z -> testNames r = [])
        /\ (result r = Error -> errorMessages r = []).
Proof.
  apply (silent_abort Scenario.timedOut Scenario.config Scenario.inputFiles
           Scenario.timedOutBaseline).
  - split; reflexivity.
  - discriminate.
Defined.

(** ** The constructor and the process *)

Lemma lookup_freeze (k : string) (props : list (string * JsVal)) :
  lookup k (map (fun kv => let '(k', v) := kv in (k', freezeRecursively v)) props)
  = option_map freezeRecursively (lookup k props).
Proof.
  induction props as [| [k' x] props IH]; simpl; [reflexivity |].
  destruct (String.eqb k k'); [reflexivity | exact IH].
Qed.

(** Reading a property of the frozen value gives the frozen property. *)
Lemma getProp_freeze (k : string) (v : JsVal) :
  getProp k (freezeRecursively v) = freezeRecursively (getProp k v).
Proof.
  destruct v as [| | b | n | s | frozen props]; try reflexivity.
  simpl. rewrite lookup_freeze. now destruct (lookup k props).
Qed.

Section ConstructorState.

Variable StrykerOptions : Type.
Variable readConfig : StrykerOptions -> JsVal.
Variable load : JsVal -> list (string * ConfigWriter) -> list (string * ConfigWriter).
Variable isDebugEnabled : JsVal -> bool.
Variable stringify : JsVal -> string.

(** X13: the constructor leaves the global log level at the [logLevel] the
    config writers left in the configuration, which is the one the frozen
    configuration shows; it adds the config writers of the plugins only
    when the configuration read names plugins; and it logs one debug line,
    with the frozen configuration, when that level enables it, and nothing
    otherwise. *)
Theorem constructor_process_state (options : StrykerOptions) (p : Process) :
  let created :=
    newStryker StrykerOptions readConfig load isDebugEnabled stringify options p in
  let written := writtenConfig StrykerOptions readConfig load options p in
  globalLogLevel (snd created) = getProp "logLevel" written
  /\ contents (getProp "logLevel" (config (fst created)))
     = contents (globalLogLevel (snd created))
  /\ configWriters (snd created)
     = (if truthyVal (getProp "plugins" (readConfig options))
        then load (getProp "plugins" (readConfig options)) (configWriters p)
        else configWriters p)
  /\ logged (snd created)
     = logged p
       ++ (if isDebugEnabled (getProp "logLevel" written)
           then [(Debug, ("Using config: "
                          ++ stringify (config (fst created)))%string)]
           else []).
Proof.
  intros created written.
  assert (C : config (fst created) = freezeRecursively written) by reflexivity.
  assert (L : globalLogLevel (snd created) = getProp "logLevel" written).
  { unfold created, newStryker, freezeConfig. cbn [snd].
    match goal with
    | |- globalLogLevel (if ?b then _ else _) = _ => destruct b
    end; reflexivity. }
  split; [exact L |].
  split; [rewrite C, L, getProp_freeze; apply freezeRecursively_contents |].
  split.
  - unfold created, newStryker, freezeConfig. cbn [snd].
    match goal with
    | |- configWriters (if ?b then _ else _) = _ => destruct b
    end; cbn [configWriters setGlobalLogLevel];
      unfold loadPlugins, setGlobalLogLevel; cbn [config];
      destruct (truthyVal (getProp "plugins" (readConfig options)));
      reflexivity.
  - unfold created, newStryker, freezeConfig. cbn [snd fst].
    change (globalLogLevel
              (setGlobalLogLevel
                 (applyConfigWriters (mkStryker (readConfig options))
                    (loadPlugins load (mkStryker (readConfig options))
                       (setGlobalLogLevel (mkStryker (readConfig options)) p)))
                 (loadPlugins load (mkStryker (readConfig options))
                    (setGlobalLogLevel (mkStryker (readConfig options)) p))))
      with (getProp "logLevel" written).
    destruct (isDebugEnabled (getProp "logLevel" written)).
    + cbn [logged]. unfold loadPlugins, setGlobalLogLevel. cbn [config].
      destruct (truthyVal (getProp "plugins" (readConfig options)));
        reflexivity.
    + rewrite app_nil_r. unfold setGlobalLogLevel at 1. cbn [logged].
      unfold loadPlugins, setGlobalLogLevel. cbn [config].
      destruct (truthyVal (getProp "plugins" (readConfig options)));
        reflexivity.
Qed.

End ConstructorState.

(** ** The whole program *)

Section MainRun.

Context {Mutant MutantResult TestSelector : Type}.
Variable env : Collaborators Mutant MutantResult TestSelector.
Variable readConfig : JsVal -> JsVal.
Variable load : JsVal -> list (string * ConfigWriter) -> list (string * ConfigWriter).
Variable isDebugEnabled : JsVal -> bool.
Variable stringify : JsVal -> string.

(** X14: the program reads its configuration from the parsed command line
    without the state of commander, lets the config writers write, and runs
    the coordinator on the frozen result; the log level it set from the
    command line at the start is replaced by the one of that
    configuration. *)
Theorem main_runs_on_cleaned_options (program : list (string * JsVal))
    (p : Process) :
  NoDup (map fst program) ->
  let written :=
    writtenConfig JsVal readConfig load (JObj false (filter Cli.kept program)) p in
  fst (main env readConfig load isDebugEnabled stringify program p)
  = run env (freezeRecursively written)
  /\ deepFrozen (freezeRecursively written) = true
  /\ globalLogLevel (snd (main env readConfig load isDebugEnabled stringify program p))
     = getProp "logLevel" written.
Proof.
  intros N written. unfold main. cbn [fst snd].
  rewrite (cleanUp_keeps_filter program N).
  split; [reflexivity |].
  split; [apply freezeRecursively_deepFrozen |].
  unfold newStryker, freezeConfig. cbn [snd].
  match goal with
  | |- globalLogLevel (if ?b then _ else _) = _ => destruct b
  end; reflexivity.
Qed.

End MainRun.

Lemma main_runs_on_cleaned_options_witness :
  fst (main Scenario.clean (fun options => options) (fun _ writers => writers)
         (fun _ => false) (fun _ => "") Scenario2.program Scenario.process)
  = run Scenario.clean
      (freezeRecursively
         (writtenConfig JsVal (fun options => options) (fun _ writers => writers)
            (JObj false (filter Cli.kept Scenario2.program)) Scenario.process)).
Proof.
  assert (N : NoDup (map fst Scenario2.program)).
  { simpl. repeat constructor; simpl; intuition discriminate. }
  apply (main_runs_on_cleaned_options Scenario.clean (fun options => options)
           (fun _ writers => writers) (fun _ => false) (fun _ => "")
           Scenario2.program Scenario.process N).
Defined.
